(** * DatabaseQuerySuggester: the query-suggestion engine

    A shallow embedding of [src/DatabaseQuerySuggester.py]: the two
    suggesters of [PostgreSQLManager] ([suggest_aggregate_query],
    [suggest_flipped_conditions]) and the facade [print_query_suggestions],
    together with the parts of the Python runtime they call: [str] methods
    and the fragment of [re] the four patterns of the source are written in;
    then [create_connection], [close_connection], [execute_sql] and [main]
    in a session that records the calls to the driver and the terminal.

    A statement is a [string]: its characters are the code points 0..255
    (Latin-1), with Python's own classification of them ([str.isspace],
    the [\s], [\w] and [\b] of a [str] pattern, [str.upper]). *)

From Stdlib Require Import String Ascii List NArith ZArith Bool Arith Lia.
From Stdlib Require Import DecimalString.
Import ListNotations.
Open Scope string_scope.
Open Scope list_scope.

Set Implicit Arguments.

(** ** Characters *)

Definition chars (s : string) : list ascii := list_ascii_of_string s.
Definition text (l : list ascii) : string := string_of_list_ascii l.

Definition code (c : ascii) : N := N_of_ascii c.

Definition between (lo hi n : N) : bool := (N.leb lo n && N.leb n hi)%bool.

(** [str.isspace] on one code point, every code point of Unicode: it is
    what [str.strip()] removes, and on 0..255 what [\s] matches. *)
Definition isspace_cp (n : N) : bool :=
  (between 9 13 n || between 28 32 n || N.eqb n 133 || N.eqb n 160
   || N.eqb n 5760 || between 8192 8202 n || between 8232 8233 n
   || N.eqb n 8239 || N.eqb n 8287 || N.eqb n 12288)%bool.

Definition isspace (c : ascii) : bool := isspace_cp (code c).

(** [str.isalnum] on 0..255: digits, letters, and the Latin-1 letters and
    numeric signs. *)
Definition isalnum (c : ascii) : bool :=
  let n := code c in
  (between 48 57 n || between 65 90 n || between 97 122 n
   || N.eqb n 170 || between 178 179 n || N.eqb n 181 || between 185 186 n
   || between 188 190 n || between 192 214 n || between 216 246 n
   || between 248 255 n)%bool.

(** [\w] of a [str] pattern: alphanumeric or the underscore. *)
Definition isword (c : ascii) : bool := (isalnum c || N.eqb (code c) 95)%bool.

(** The lower-case mapping [re.IGNORECASE] compares characters under. *)
Definition tolower (c : ascii) : ascii :=
  let n := code c in
  if (between 65 90 n || between 192 214 n || between 216 222 n)%bool
  then ascii_of_N (n + 32) else c.

(** [str.upper] of one character, as code points: the upper case of three
    Latin-1 letters lies outside 0..255 or is two characters long. *)
Definition upper_cp (c : ascii) : list N :=
  let n := code c in
  if between 97 122 n then [(n - 32)%N]
  else if N.eqb n 181 then [924%N]
  else if N.eqb n 223 then [83%N; 83%N]
  else if (between 224 246 n || between 248 254 n)%bool then [(n - 32)%N]
  else if N.eqb n 255 then [376%N]
  else [n].

(** ** [str] methods *)

Definition upper (s : list ascii) : list N := flat_map upper_cp s.

Definition codes (s : string) : list N := map code (chars s).

Section Strip.
Variable A : Type.
Variable space : A -> bool.

Fixpoint lstrip (s : list A) : list A :=
  match s with
  | c :: s' => if space c then lstrip s' else s
  | [] => []
  end.

Definition rstrip (s : list A) : list A := rev (lstrip (rev s)).

(** [s.strip()] *)
Definition strip (s : list A) : list A := rstrip (lstrip s).
End Strip.

Section Slices.
Variable A : Type.
Variable eqb : A -> A -> bool.

(** [s.startswith(p)] *)
Fixpoint startswith (p s : list A) : bool :=
  match p, s with
  | [], _ => true
  | x :: p', y :: s' => (eqb x y && startswith p' s')%bool
  | _ :: _, [] => false
  end.

(** [p in s] *)
Fixpoint contains (p s : list A) : bool :=
  (startswith p s ||
   match s with
   | [] => false
   | _ :: s' => contains p s'
   end)%bool.
End Slices.

(** [s.split(sep)] for a one-character separator. *)
Fixpoint split (sep : ascii) (s : list ascii) : list (list ascii) :=
  match s with
  | [] => [[]]
  | c :: s' =>
      if Ascii.eqb c sep then [] :: split sep s'
      else match split sep s' with
           | w :: ws => (c :: w) :: ws
           | [] => [[c]]
           end
  end.

(** [sep.join(parts)] *)
Fixpoint join (sep : string) (parts : list string) : string :=
  match parts with
  | [] => EmptyString
  | [p] => p
  | p :: ps => (p ++ sep ++ join sep ps)%string
  end.

(** ** The fragment of [re] the source uses

    Literals, [.], [\s], [\b], [$], sequence, alternation, capturing groups
    and the greedy or lazy repetition of a character class, matched by
    backtracking in the order Python's engine tries alternatives. *)

Record flags := { ignorecase : bool; dotall : bool }.

Inductive cclass :=
| CAny      (* . *)
| CSpace.   (* \s *)

Inductive regex :=
| Eps
| Lit (c : ascii)
| Bnd                                            (* \b *)
| Eos                                            (* $ *)
| Rep (cl : cclass) (min : nat) (greedy : bool)  (* cl*, cl+, cl*?, cl+? *)
| Seq (r1 r2 : regex)
| Alt (r1 r2 : regex)
| Grp (n : nat) (r : regex).                     (* ( r ), group n *)

(** The literal text [s] as a pattern. *)
Fixpoint lits_of (s : list ascii) : regex :=
  match s with
  | [] => Eps
  | c :: s' => Seq (Lit c) (lits_of s')
  end.

Definition lits (s : string) : regex := lits_of (chars s).

Declare Scope re_scope.
Delimit Scope re_scope with re.
Bind Scope re_scope with regex.
Infix ";;" := Seq (at level 61, right associativity) : re_scope.
Infix "<|>" := Alt (at level 62, right associativity) : re_scope.

Definition in_class (f : flags) (cl : cclass) (c : ascii) : bool :=
  match cl with
  | CAny => (dotall f || negb (Ascii.eqb c "010"%char))%bool
  | CSpace => isspace c
  end.

Definition lit_eq (f : flags) (c x : ascii) : bool :=
  if ignorecase f then Ascii.eqb (tolower x) (tolower c) else Ascii.eqb x c.

Definition word_at (l : list ascii) : bool :=
  match l with
  | c :: _ => isword c
  | [] => false
  end.

(** [\b]: exactly one of the characters before and after the position is a
    word character. [bef] is the text before the position, nearest
    character first. *)
Definition at_boundary (bef aft : list ascii) : bool :=
  xorb (word_at bef) (word_at aft).

(** [$] without [re.MULTILINE]: the end of the string, or just before a
    newline that ends the string. *)
Definition at_end (aft : list ascii) : bool :=
  match aft with
  | [] => true
  | [c] => Ascii.eqb c "010"%char
  | _ => false
  end.

(** A mark [(2n, p)] records that group [n] starts at offset [p], a mark
    [(2n+1, p)] that it ends there. *)
Definition marks := list (nat * nat).
Definition cont := list ascii -> list ascii -> option marks.

(** Backtracking: the second alternative is tried when the first fails. *)
Notation "x 'orelse' y" :=
  (match x with
   | Some ms => Some ms
   | None => y
   end) (at level 70, no associativity, only parsing).

Section Repeat.
Variable p : ascii -> bool.
Variable k : cont.

(** Greedy: take a character while the class allows, and hand over to the
    continuation at the longest reach first. *)
Fixpoint rep_greedy (min : nat) (bef aft : list ascii) : option marks :=
  let stop := match min with 0 => k bef aft | S _ => None end in
  match aft with
  | c :: aft' =>
      if p c then rep_greedy (pred min) (c :: bef) aft' orelse stop
      else stop
  | [] => stop
  end.

(** Lazy: hand over to the continuation at the shortest reach first. *)
Fixpoint rep_lazy (min : nat) (bef aft : list ascii) : option marks :=
  let more :=
    match aft with
    | c :: aft' => if p c then rep_lazy (pred min) (c :: bef) aft' else None
    | [] => None
    end in
  match min with
  | 0 => k bef aft orelse more
  | S _ => more
  end.
End Repeat.

Definition mark (slot : nat) (k : cont) : cont :=
  fun bef aft => option_map (cons (slot, length bef)) (k bef aft).

(** [m f r k bef aft]: match [r] at the position between [bef] and [aft],
    then continue with [k]; the first success in backtracking order. *)
Fixpoint m (f : flags) (r : regex) (k : cont) (bef aft : list ascii)
  : option marks :=
  match r with
  | Eps => k bef aft
  | Lit c =>
      match aft with
      | x :: aft' => if lit_eq f c x then k (x :: bef) aft' else None
      | [] => None
      end
  | Bnd => if at_boundary bef aft then k bef aft else None
  | Eos => if at_end aft then k bef aft else None
  | Rep cl min greedy =>
      if greedy then rep_greedy (in_class f cl) k min bef aft
      else rep_lazy (in_class f cl) k min bef aft
  | Seq r1 r2 => m f r1 (fun b a => m f r2 k b a) bef aft
  | Alt r1 r2 => m f r1 k bef aft orelse m f r2 k bef aft
  | Grp n r => mark (2 * n) (fun b a => m f r (mark (2 * n + 1) k) b a) bef aft
  end.

(** The whole pattern is group 0. *)
Definition match_here (f : flags) (r : regex) : cont :=
  m f (Grp 0 r) (fun _ _ => Some []).

(** [re.search]: the first offset, from the left, at which the pattern
    matches. *)
Fixpoint search_from (f : flags) (r : regex) (bef aft : list ascii)
  : option marks :=
  match match_here f r bef aft with
  | Some ms => Some ms
  | None =>
      match aft with
      | c :: aft' => search_from f r (c :: bef) aft'
      | [] => None
      end
  end.

Definition re_search (f : flags) (r : regex) (s : list ascii) : option marks :=
  search_from f r [] s.

Fixpoint slot (i : nat) (ms : marks) : nat :=
  match ms with
  | (j, p) :: ms' => if Nat.eqb i j then p else slot i ms'
  | [] => 0
  end.

(** [match.start(n)], [match.end(n)], [match.group(n)] *)
Definition m_start (ms : marks) (n : nat) : nat := slot (2 * n) ms.
Definition m_end (ms : marks) (n : nat) : nat := slot (2 * n + 1) ms.
Definition m_group (s : list ascii) (ms : marks) (n : nat) : list ascii :=
  firstn (m_end ms n - m_start ms n) (skipn (m_start ms n) s).

(** [re.sub] with a function as replacement: the matches are taken from the
    left without overlap, each is replaced by [repl] of its text, the text
    between them is copied. [skip] counts the characters of the current
    match still to pass. An empty match inserts its replacement before the
    next character; the pattern of the source matches one or two characters,
    never the empty text. *)
Fixpoint sub_from (f : flags) (r : regex) (repl : list ascii -> list ascii)
    (skip : nat) (bef aft : list ascii) : list ascii :=
  match skip with
  | S n =>
      match aft with
      | c :: aft' => sub_from f r repl n (c :: bef) aft'
      | [] => []
      end
  | 0 =>
      match match_here f r bef aft with
      | Some ms =>
          let n := m_end ms 0 - m_start ms 0 in
          repl (firstn n aft) ++
          match aft with
          | c :: aft' =>
              match n with
              | 0 => c :: sub_from f r repl 0 (c :: bef) aft'
              | S n' => sub_from f r repl n' (c :: bef) aft'
              end
          | [] => []
          end
      | None =>
          match aft with
          | c :: aft' => c :: sub_from f r repl 0 (c :: bef) aft'
          | [] => []
          end
      end
  end.

Definition re_sub (f : flags) (r : regex) (repl : list ascii -> list ascii)
    (s : list ascii) : list ascii :=
  sub_from f r repl 0 [] s.

(** ** The patterns of the source *)

Definition IS := {| ignorecase := true; dotall := true |}.
Definition I_ := {| ignorecase := true; dotall := false |}.
Definition NOFLAGS := {| ignorecase := false; dotall := false |}.

(** [r'SELECT\s+(.*?)\s+FROM'] *)
Definition select_re : regex :=
  (lits "SELECT" ;; Rep CSpace 1 true ;; Grp 1 (Rep CAny 0 false) ;;
   Rep CSpace 1 true ;; lits "FROM")%re.

(** [r'\b(COUNT|SUM|AVG|MIN|MAX|GROUP BY)\b'] *)
Definition aggregate_re : regex :=
  (Bnd ;;
   Grp 1 (lits "COUNT" <|> lits "SUM" <|> lits "AVG" <|> lits "MIN" <|>
          lits "MAX" <|> lits "GROUP BY") ;;
   Bnd)%re.

(** [r'\bWHERE\b(.*?)(?:\bGROUP BY\b|\bORDER BY\b|\bLIMIT\b|$)'] *)
Definition clause_end_re : regex :=
  ((Bnd ;; lits "GROUP BY" ;; Bnd) <|> (Bnd ;; lits "ORDER BY" ;; Bnd) <|>
   (Bnd ;; lits "LIMIT" ;; Bnd) <|> Eos)%re.

Definition where_re : regex :=
  (Bnd ;; lits "WHERE" ;; Bnd ;; Grp 1 (Rep CAny 0 false) ;; clause_end_re)%re.

(** [r'(>=|<=|<>|!=|>|<|=)'] *)
Definition operator_re : regex :=
  Grp 1 (lits ">=" <|> lits "<=" <|> lits "<>" <|> lits "!=" <|>
         lits ">" <|> lits "<" <|> lits "=")%re.

(** ** Exceptions and the database driver

    What the suggesters see of psycopg: [cursor.execute] either raises
    [psycopg.Error] or leaves the descriptors of the result columns in
    [cursor.description] ([None] when the statement returns no rows), and
    [cursor.fetchall] returns the rows or raises [psycopg.Error]. The
    suggesters read [description] right after [execute] and discard the rows,
    so a cursor is modelled by the reply it gives to a statement. *)

Inductive exn :=
| AttributeError   (* an attribute of [None] was asked for *)
| Error.           (* psycopg.Error and its subclasses *)

Inductive py (A : Type) :=
| Return (a : A)
| Raise (e : exn).
Arguments Raise {A} e.

Definition bind (A B : Type) (x : py A) (k : A -> py B) : py B :=
  match x with
  | Return a => k a
  | Raise e => Raise e
  end.

Notation "x <- c ;;; k" := (bind c (fun x => k))
  (at level 100, c at next level, right associativity).

(** [try: body except Error: handler] *)
Definition try_except_Error (A : Type) (body : py A) (handler : py A) : py A :=
  match body with
  | Raise Error => handler
  | _ => body
  end.

(** One entry of [cursor.description]: [desc[0]] and [desc[1]]. *)
Record Column := { name : string; type_code : Z }.

Inductive reply :=
| Fails                                    (* [execute] raises [Error] *)
| Runs (description : option (list Column))
       (rows : bool).                      (* [false]: [fetchall] raises [Error] *)

Definition Cursor := string -> reply.

Record PostgreSQLManager := {
  connection : option unit;
  cursor : option Cursor
}.

(** [__init__]: no connection, no cursor. *)
Definition init : PostgreSQLManager := {| connection := None; cursor := None |}.

(** [self.cursor.fetchall()]; the rows themselves are discarded. *)
Definition fetchall (rows : bool) : py unit :=
  if rows then Return tt else Raise Error.

(** [self.cursor.execute(sql_command)], giving [self.cursor.description]. *)
Definition execute (self : PostgreSQLManager) (sql_command : string)
  : py (option (list Column) * bool) :=
  match cursor self with
  | None => Raise AttributeError
  | Some cur =>
      match cur sql_command with
      | Fails => Raise Error
      | Runs description rows => Return (description, rows)
      end
  end.

(** ** [suggest_aggregate_query] *)

Definition numeric_types : list Z := [23; 20; 21; 700; 701; 1700; 1114]%Z.

Definition is_numeric (col_type : Z) : bool :=
  existsb (Z.eqb col_type) numeric_types.

(** The f-string of one numeric column. *)
Definition agg_column (col_name : string) : string :=
  ("COUNT(" ++ col_name ++ ") as count_" ++ col_name ++
   ", SUM(" ++ col_name ++ ") as sum_" ++ col_name ++
   ", AVG(" ++ col_name ++ ") as avg_" ++ col_name)%string.

Definition star : list ascii := chars "*".

Definition list_eqb (a b : list ascii) : bool :=
  String.eqb (text a) (text b).

Definition suggest_aggregate_query (self : PostgreSQLManager)
    (sql_command : string) : py (option string) :=
  let sql := chars sql_command in
  let sql_upper := upper sql in
  if negb (startswith N.eqb (codes "SELECT") (strip isspace_cp sql_upper))
  then Return None
  else
    match re_search IS select_re sql with
    | None => Return None
    | Some select_match =>
        let select_clause := strip isspace (m_group sql select_match 1) in
        match re_search I_ aggregate_re sql with
        | Some _ => Return None
        | None =>
            if list_eqb select_clause star then Return None
            else
              let columns := map (strip isspace) (split ","%char select_clause) in
              try_except_Error
                (r <- execute self sql_command ;;;
                 let (description, rows) := r in
                 match description with
                 | None | Some [] => Return None
                 | Some descs =>
                     let column_info :=
                       map name (filter (fun desc => is_numeric (type_code desc)) descs) in
                     _ <- fetchall rows ;;;
                     match column_info with
                     | [] => Return None
                     | _ :: _ =>
                         let agg_columns := map agg_column column_info in
                         let agg_select := join ", " agg_columns in
                         let rest_of_query := skipn (m_end select_match 1) sql in
                         Return (Some ("SELECT " ++ agg_select ++ text rest_of_query)%string)
                     end
                 end)
                (Return None)
        end
    end.

(** ** [suggest_flipped_conditions] *)

Definition flip_map : list (string * string) :=
  [(">=", "<"); ("<=", ">"); ("<>", "="); ("!=", "=");
   (">", "<="); ("<", ">="); ("=", "<>")].

(** [d.get(key, default)] *)
Fixpoint dict_get (d : list (string * string)) (key default : string) : string :=
  match d with
  | (k, v) :: d' => if String.eqb k key then v else dict_get d' key default
  | [] => default
  end.

(** [flip_operator], on the text [match.group(0)] of the operator found. *)
Definition flip_operator (op : string) : string := dict_get flip_map op op.

Definition suggest_flipped_conditions (self : PostgreSQLManager)
    (sql_command : string) : option string :=
  let sql := chars sql_command in
  let sql_upper := upper sql in
  if negb (contains N.eqb (codes "WHERE") sql_upper) then None
  else
    match re_search IS where_re sql with
    | None => None
    | Some where_match =>
        let where_clause := chars " " ++ strip isspace (m_group sql where_match 1) in
        let flipped_where :=
          re_sub NOFLAGS operator_re (fun op => chars (flip_operator (text op)))
                 where_clause in
        let before_where := firstn (m_start where_match 1) sql in
        let after_where := skipn (m_end where_match 1) sql in
        Some (text (before_where ++ flipped_where ++ after_where))
    end.

(** ** [print_query_suggestions] *)

Record Suggestion := {
  title : string;
  query : string;
  rationale : string
}.

(** Truth value of [None] or a [str]. *)
Definition truthy (o : option string) : bool :=
  match o with
  | Some s => negb (String.eqb s EmptyString)
  | None => false
  end.

Definition aggregate_rationale : string :=
  "This query might be worth running to get an average of the data you just retrieved.".

Definition flipped_rationale : string :=
  "These queries could help you by giving you the data you haven't seen yet.".

Definition suggestion_of (ttl why : string) (o : option string) : list Suggestion :=
  match o with
  | Some q => if truthy o then [{| title := ttl; query := q; rationale := why |}] else []
  | None => []
  end.

(** The list [suggestions] as the first half of [print_query_suggestions]
    builds it (source lines 129 to 137). *)
Definition gather_suggestions (self : PostgreSQLManager) (sql_command : string)
  : py (list Suggestion) :=
  agg_query <- suggest_aggregate_query self sql_command ;;;
  let suggestions := suggestion_of "Aggregate Query" aggregate_rationale agg_query in
  let flipped_query := suggest_flipped_conditions self sql_command in
  Return (suggestions ++
          suggestion_of "Flipped Conditions" flipped_rationale flipped_query).

Definition nl : string := String "010"%char EmptyString.

Fixpoint times (s : string) (n : nat) : string :=
  match n with
  | 0 => EmptyString
  | S n' => (s ++ times s n')%string
  end.

Definition print_suggestion (s : Suggestion) : list string :=
  [(nl ++ title s ++ ":")%string; ("  " ++ rationale s)%string; ("  " ++ query s)%string].

(** The function returns [None]; its result here is what it printed, one
    entry for each call of [print]. *)
Definition print_query_suggestions (self : PostgreSQLManager)
    (sql_command : string) : py (list string) :=
  suggestions <- gather_suggestions self sql_command ;;;
  let shown :=
    match suggestions with
    | [] => []
    | _ :: _ =>
        [(nl ++ "--- Query Suggestions ---")%string] ++
        flat_map print_suggestion suggestions ++ [times "-" 60]
    end in
  match connection self, cursor self with
  | Some _, Some _ => Return shown
  | _, _ => Return (shown ++ ["Error: No active database connection"])
  end.

(** ** Vocabulary of the properties *)

(** [x] spells the keyword [kw], in any mix of upper and lower case. *)
Definition same_word (kw : string) (x : list ascii) : Prop :=
  Forall2 (fun c y => tolower y = tolower c) (chars kw) x.

(** [ws] is whitespace only. *)
Definition blank (ws : list ascii) : Prop := forallb isspace ws = true.

(** [kw] stands in [s] as a whole word: no word character right before it
    nor right after it. *)
Definition whole_word_in (kw : string) (s : list ascii) : Prop :=
  exists pre w post,
    s = pre ++ w ++ post /\ same_word kw w /\
    word_at (rev pre) = false /\ word_at post = false.

Definition aggregate_words : list string :=
  ["COUNT"; "SUM"; "AVG"; "MIN"; "MAX"; "GROUP BY"].

Definition already_aggregated (sql_command : string) : Prop :=
  exists kw, In kw aggregate_words /\ whole_word_in kw (chars sql_command).

Definition clause_words : list string := ["GROUP BY"; "ORDER BY"; "LIMIT"].

(** Where the body of a WHERE clause stops: at the end of the statement, at
    a newline that ends the statement, or at one of the clause keywords. *)
Definition clause_stop (post : list ascii) : Prop :=
  post = [] \/ post = chars nl \/
  exists kw w rest, In kw clause_words /\ post = w ++ rest /\ same_word kw w.

(** The length of a match. *)
Definition span (ms : marks) : nat := m_end ms 0 - m_start ms 0.

(** The comparison operators of a text, each replaced by its inverse. *)
Definition flip_all (s : list ascii) : list ascii :=
  re_sub NOFLAGS operator_re (fun op => chars (flip_operator (text op))) s.

(** The probing execution fails: [execute] or [fetchall] raises
    [psycopg.Error]. *)
Definition probe_fails (self : PostgreSQLManager) (sql_command : string) : Prop :=
  exists cur, cursor self = Some cur /\
    (cur sql_command = Fails \/
     exists description, cur sql_command = Runs description false).

(** The names of the numeric columns of a result, in its order. *)
Definition numeric_columns (descs : list Column) : list string :=
  map name (filter (fun desc => is_numeric (type_code desc)) descs).

(** Managers and cursors the examples run on. *)
Definition connected (cur : Cursor) : PostgreSQLManager :=
  {| connection := Some tt; cursor := Some cur |}.

Definition int4 : Z := 23.
Definition text_oid : Z := 25.

Definition describes (descs : list Column) : Cursor :=
  fun _ => Runs (Some descs) true.

Definition failing_cursor : Cursor := fun _ => Fails.

Definition all_ascii : list ascii := map ascii_of_nat (seq 0 256).

Definition codes_eqb (a b : list N) : bool :=
  if list_eq_dec N.eq_dec a b then true else false.

(** ** Vocabulary of the further properties *)

(** Two characters that differ at most in case. *)
Definition ci_eqb (c y : ascii) : bool := Ascii.eqb (tolower y) (tolower c).

(** The comparison operators, by their characters. *)
Definition one_char_operator (c : ascii) : bool :=
  (Ascii.eqb c ">" || Ascii.eqb c "<" || Ascii.eqb c "=")%bool.

Definition two_char_operator (c d : ascii) : bool :=
  (Ascii.eqb c ">" && Ascii.eqb d "=" || Ascii.eqb c "<" && Ascii.eqb d "=" ||
   Ascii.eqb c "<" && Ascii.eqb d ">" || Ascii.eqb c "!" && Ascii.eqb d "=")%bool.

(** The operator a text starts with, the longer one first. *)
Definition operator_at (s : list ascii) : option (list ascii) :=
  match s with
  | c :: d :: _ =>
      if two_char_operator c d then Some [c; d]
      else if one_char_operator c then Some [c] else None
  | [c] => if one_char_operator c then Some [c] else None
  | [] => None
  end.

(** The flip as one scan from the left: at each position the longest
    operator that starts there is replaced by its inverse and passed over,
    any other character is copied. *)
Fixpoint flip_scan (s : list ascii) : list ascii :=
  match s with
  | [] => []
  | c :: t =>
      match t with
      | d :: u =>
          if two_char_operator c d
          then chars (flip_operator (text [c; d])) ++ flip_scan u
          else if one_char_operator c
               then chars (flip_operator (text [c])) ++ flip_scan t
               else c :: flip_scan t
      | [] =>
          if one_char_operator c then chars (flip_operator (text [c])) else [c]
      end
  end.


(** ** The session: the driver, the terminal and the other methods

    [create_connection], [close_connection], [execute_sql] and [main] talk
    to psycopg and to the terminal. A session is the list of what happened
    so far, in order: the calls made to the driver, what was printed, the
    prompts shown. The driver is any function of that history: whether the
    call that ends it raises [psycopg.Error], and what the cursor holds
    after it. *)

Inductive event :=
| Printed (line : string)                                  (* print(line) *)
| Prompted (prompt : string)                               (* input(prompt) *)
| Connect (host dbname user password : string) (port : Z)  (* psycopg.connect *)
| OpenCursor                                               (* connection.cursor() *)
| Execute (sql : string)                                   (* cursor.execute(sql) *)
| FetchAll                                                 (* cursor.fetchall() *)
| Commit                                                   (* connection.commit() *)
| Rollback                                                 (* connection.rollback() *)
| CloseCursor                                              (* cursor.close() *)
| CloseConnection.                                         (* connection.close() *)

Record Driver := {
  (** the call that ends the history raises [psycopg.Error]; the text is
      [str(e)] *)
  raises : list event -> option string;
  (** [cursor.description], [cursor.rowcount] as they stand after the
      history; the rows [fetchall] returns when it ends the history, each
      value as [str] prints it *)
  description_after : list event -> option (list Column);
  rowcount_after : list event -> Z;
  rows_after : list event -> list (list string)
}.

(** What a function can raise in a session. *)
Inductive failure :=
| DatabaseError (message : string)   (* psycopg.Error *)
| NoAttribute                        (* AttributeError *)
| EndOfInput                         (* EOFError *)
| Interrupted                        (* KeyboardInterrupt *)
| BadNumber                          (* ValueError *)
| NotIterable.                       (* TypeError: iterating over None *)

Inductive outcome (A : Type) :=
| Done (a : A)
| Failed (e : failure).
Arguments Failed {A} e.

(** The manager's two attributes, as present or [None], and the history. *)
Record state := {
  has_connection : bool;
  has_cursor : bool;
  history : list event
}.

Definition io (A : Type) := state -> outcome A * state.

Definition ret (A : Type) (a : A) : io A := fun s => (Done a, s).

Definition throw (A : Type) (e : failure) : io A := fun s => (Failed e, s).
Arguments throw {A} e.

Definition io_bind (A B : Type) (x : io A) (k : A -> io B) : io B :=
  fun s =>
    match x s with
    | (Done a, s') => k a s'
    | (Failed e, s') => (Failed e, s')
    end.

Notation "x <~ c ;~ k" := (io_bind c (fun x => k))
  (at level 100, c at next level, right associativity).
Notation "c ;~ k" := (io_bind c (fun _ => k))
  (at level 100, right associativity).

(** [try: body except Error as e: handler(e)] *)
Definition except_Error (A : Type) (body : io A) (handler : string -> io A) : io A :=
  fun s =>
    match body s with
    | (Failed (DatabaseError e), s') => handler e s'
    | r => r
    end.

Definition record (e : event) (s : state) : state :=
  {| has_connection := has_connection s;
     has_cursor := has_cursor s;
     history := history s ++ [e] |}.

Definition print (line : string) : io unit := fun s => (Done tt, record (Printed line) s).

(** A call to the driver: it enters the history, and raises when the driver
    says so. *)
Definition call (d : Driver) (e : event) : io unit :=
  fun s =>
    let s' := record e s in
    match raises d (history s') with
    | Some message => (Failed (DatabaseError message), s')
    | None => (Done tt, s')
    end.

Definition description (d : Driver) : io (option (list Column)) :=
  fun s => (Done (description_after d (history s)), s).

Definition rowcount (d : Driver) : io Z :=
  fun s => (Done (rowcount_after d (history s)), s).

(** [self.cursor.fetchall()] *)
Definition fetch (d : Driver) : io (list (list string)) :=
  call d FetchAll ;~ fun s => (Done (rows_after d (history s)), s).

Definition set_connection : io unit :=
  fun s => (Done tt, {| has_connection := true; has_cursor := has_cursor s;
                        history := history s |}).

Definition set_cursor : io unit :=
  fun s => (Done tt, {| has_connection := has_connection s; has_cursor := true;
                        history := history s |}).

(** [str(n)] of a length, [str(z)] of a row count. *)
Definition str_nat (n : nat) : string := NilEmpty.string_of_uint (Nat.to_uint n).
Definition str_int (z : Z) : string := NilZero.string_of_int (Z.to_int z).

(** *** [create_connection] *)

Definition create_connection (d : Driver)
    (host database user password : string) (port : Z) : io bool :=
  except_Error
    (call d (Connect host database user password port) ;~
     set_connection ;~
     call d OpenCursor ;~
     set_cursor ;~
     print ("Successfully connected to database: " ++ database)%string ;~
     ret true)
    (fun e =>
       print ("Error connecting to PostgreSQL: " ++ e)%string ;~
       ret false).

(** *** [close_connection] *)

Definition close_connection (d : Driver) : io unit :=
  fun s =>
    ((if has_cursor s then call d CloseCursor else ret tt) ;~
     if has_connection s
     then (call d CloseConnection ;~ print "Connection closed successfully")
     else ret tt) s.

(** *** [execute_sql] *)

Fixpoint print_rows (results : list (list string)) : io unit :=
  match results with
  | [] => ret tt
  | row :: results' => print (join " | " row) ;~ print_rows results'
  end.

Definition execute_sql (d : Driver) (sql_command : string) : io unit :=
  fun s =>
    if (negb (has_connection s) || negb (has_cursor s))%bool
    then print "Error: No active database connection" s
    else
      except_Error
        (call d (Execute sql_command) ;~
         shown <~ description d ;~
         match shown with
         | Some (_ :: _) =>
             results <~ fetch d ;~
             again <~ description d ;~
             match again with
             | None => throw NotIterable
             | Some descs =>
                 let column_names := map name descs in
                 print (nl ++ join " | " column_names)%string ;~
                 print (times "-" (String.length (join " | " column_names))) ;~
                 print_rows results ;~
                 print (nl ++ "(" ++ str_nat (length results) ++ " row(s) returned)")%string
             end
         | _ =>
             call d Commit ;~
             n <~ rowcount d ;~
             print ("Command executed successfully. Rows affected: " ++ str_int n)%string
         end)
        (fun e =>
           print ("Error executing SQL: " ++ e)%string ;~
           call d Rollback) s.

(** *** The suggesters in a session

    [suggest_aggregate_query] once more, with its calls to the driver
    entered in the history. *)

Definition suggest_aggregate_query_io (d : Driver) (sql_command : string)
  : io (option string) :=
  let sql := chars sql_command in
  let sql_upper := upper sql in
  if negb (startswith N.eqb (codes "SELECT") (strip isspace_cp sql_upper))
  then ret None
  else
    match re_search IS select_re sql with
    | None => ret None
    | Some select_match =>
        let select_clause := strip isspace (m_group sql select_match 1) in
        match re_search I_ aggregate_re sql with
        | Some _ => ret None
        | None =>
            if list_eqb select_clause star then ret None
            else
              let columns := map (strip isspace) (split ","%char select_clause) in
              except_Error
                ((fun s =>
                    (if has_cursor s then call d (Execute sql_command)
                     else throw NoAttribute) s) ;~
                 shown <~ description d ;~
                 match shown with
                 | None | Some [] => ret None
                 | Some descs =>
                     let column_info :=
                       map name (filter (fun desc => is_numeric (type_code desc)) descs) in
                     call d FetchAll ;~
                     match column_info with
                     | [] => ret None
                     | _ :: _ =>
                         let agg_columns := map agg_column column_info in
                         let agg_select := join ", " agg_columns in
                         let rest_of_query := skipn (m_end select_match 1) sql in
                         ret (Some ("SELECT " ++ agg_select ++ text rest_of_query)%string)
                     end
                 end)
                (fun _ => ret None)
        end
    end.

(** The cursor of the manager above, for the driver after a history. *)
Definition cursor_at (d : Driver) (h : list event) : Cursor :=
  fun sql =>
    let h' := h ++ [Execute sql] in
    match raises d h' with
    | Some _ => Fails
    | None =>
        Runs (description_after d h')
             match raises d (h' ++ [FetchAll]) with
             | Some _ => false
             | None => true
             end
    end.

Definition manager_at (d : Driver) (s : state) : PostgreSQLManager :=
  {| connection := if has_connection s then Some tt else None;
     cursor := if has_cursor s then Some (cursor_at d (history s)) else None |}.

Fixpoint print_all (lines : list string) : io unit :=
  match lines with
  | [] => ret tt
  | line :: lines' => print line ;~ print_all lines'
  end.

Definition print_query_suggestions_io (d : Driver) (sql_command : string) : io unit :=
  agg_query <~ suggest_aggregate_query_io d sql_command ;~
  fun s =>
    let suggestions :=
      suggestion_of "Aggregate Query" aggregate_rationale agg_query ++
      suggestion_of "Flipped Conditions" flipped_rationale
        (suggest_flipped_conditions (manager_at d s) sql_command) in
    ((match suggestions with
      | [] => ret tt
      | _ :: _ =>
          print (nl ++ "--- Query Suggestions ---")%string ;~
          print_all (flat_map print_suggestion suggestions) ;~
          print (times "-" 60)
      end) ;~
     if (negb (has_connection s) || negb (has_cursor s))%bool
     then print "Error: No active database connection"
     else ret tt) s.

(** *** [main]

    The terminal gives the lines typed, one for each [input]; Ctrl-C at a
    prompt raises [KeyboardInterrupt], the end of the input [EOFError]. *)

Inductive keystroke :=
| Line (typed : string)
| CtrlC.

(** [input(prompt)]: the line read and the keys left. *)
Definition input (prompt : string) (keys : list keystroke)
  : io (string * list keystroke) :=
  fun s =>
    let s' := record (Prompted prompt) s in
    match keys with
    | Line typed :: keys' => (Done (typed, keys'), s')
    | CtrlC :: _ => (Failed Interrupted, s')
    | [] => (Failed EndOfInput, s')
    end.

(** [x or default] on strings. *)
Definition or_default (x default : string) : string :=
  if String.eqb x EmptyString then default else x.

(** [s.lower()], [s.strip()] on strings. *)
Definition lower (s : string) : string := text (map tolower (chars s)).
Definition stripped (s : string) : string := text (strip isspace (chars s)).

Definition is_quit (command : string) : bool :=
  existsb (String.eqb (lower command)) ["quit"; "exit"].

Definition sql_prompt : string := (nl ++ "SQL> ")%string.

(** The [while True] loop: each turn reads one line, so the loop runs along
    the keys. [break] and the two [except] clauses end it normally; any
    other exception leaves it. *)
Fixpoint command_loop (d : Driver) (keys : list keystroke) : io unit :=
  match keys with
  | [] => fun s => (Done tt, record (Prompted sql_prompt) s)
  | CtrlC :: _ =>
      (fun s => (Done tt, record (Prompted sql_prompt) s)) ;~
      print (nl ++ nl ++ "Interrupted by user")%string
  | Line typed :: keys' =>
      (fun s => (Done tt, record (Prompted sql_prompt) s)) ;~
      let command := stripped typed in
      if is_quit command then ret tt
      else
        (if String.eqb command EmptyString then ret tt
         else (execute_sql d command ;~ print_query_suggestions_io d command)) ;~
        command_loop d keys'
  end.

(** A new [PostgreSQLManager()] in a new session. *)
Definition fresh : state :=
  {| has_connection := false; has_cursor := false; history := [] |}.

(** [int] is Python's own conversion of the port typed. *)
Definition main (d : Driver) (int : string -> option Z) (keys : list keystroke)
  : outcome unit * state :=
  (print "=== PostgreSQL Connection Manager ===" ;~
   a <~ input "Host (default: localhost): " keys ;~
   let host := or_default (fst a) "localhost" in
   b <~ input "Database name: " (snd a) ;~
   let database := fst b in
   c <~ input "Username: " (snd b) ;~
   let user := fst c in
   e <~ input "Password: " (snd c) ;~
   let password := fst e in
   f <~ input "Port (default: 5432): " (snd e) ;~
   let port := or_default (fst f) "5432" in
   match int port with
   | None => throw BadNumber
   | Some port_number =>
       connected <~ create_connection d host database user password port_number ;~
       if negb connected then ret tt
       else
         print (nl ++ "Enter SQL commands (type 'quit' or 'exit' to close connection and exit)")%string ;~
         print (times "-" 60) ;~
         command_loop d (snd f) ;~
         close_connection d ;~
         print "Goodbye!"
   end) fresh.

(** *** Vocabulary of the session properties *)

(** The calls to the driver among the events. *)
Definition is_call (e : event) : bool :=
  match e with
  | Printed _ | Prompted _ => false
  | _ => true
  end.

Definition calls (h : list event) : list event := filter is_call h.

(** [fetchall] leaves [cursor.description] as it is. *)
Definition steady (d : Driver) : Prop :=
  forall h, description_after d (h ++ [FetchAll]) = description_after d h.

(** The driver never raises on the call [e]. *)
Definition never_raises (d : Driver) (e : event) : Prop :=
  forall h, raises d (h ++ [e]) = None.

(** A result of the pure model, as an outcome of the session. *)
Definition outcome_of (A : Type) (r : py A) : outcome A :=
  match r with
  | Return a => Done a
  | Raise AttributeError => Failed NoAttribute
  | Raise Error => Failed (DatabaseError EmptyString)
  end.

(** A driver that answers every statement with one numeric column. *)
Definition calm : Driver :=
  {| raises := fun _ => None;
     description_after := fun _ => Some [{| name := "a"; type_code := int4 |}];
     rowcount_after := fun _ => 1%Z;
     rows_after := fun _ => [["1"]] |}.

(** A driver that refuses every connection. *)
Definition unreachable : Driver :=
  {| raises := fun h =>
       match last h CloseConnection with
       | Connect _ _ _ _ _ => Some "connection refused"
       | _ => None
       end;
     description_after := fun _ => None;
     rowcount_after := fun _ => 0%Z;
     rows_after := fun _ => [] |}.

(** Python's [int] on the two port texts of the examples. *)
Definition int_of_port (s : string) : option Z :=
  if String.eqb s "5432" then Some 5432%Z
  else if String.eqb s "5433" then Some 5433%Z else None.

(** The two closing calls. *)
Definition is_close (e : event) : bool :=
  match e with
  | CloseCursor | CloseConnection => true
  | _ => false
  end.

(** What [main] prints and asks before it connects. *)
Definition asked : list event :=
  [Printed "=== PostgreSQL Connection Manager ===";
   Prompted "Host (default: localhost): ";
   Prompted "Database name: ";
   Prompted "Username: ";
   Prompted "Password: ";
   Prompted "Port (default: 5432): "].

(** The terminal answers the five opening prompts with a line each. *)
Definition five_lines (keys : list keystroke) : bool :=
  match keys with
  | Line _ :: Line _ :: Line _ :: Line _ :: Line _ :: _ => true
  | _ => false
  end.

(** ** Vocabulary of the clause splits *)



(** [t] starts with whitespace that is followed by FROM, in any case. *)
Definition from_here (t : list ascii) : bool :=
  match t with
  | c :: _ => isspace c && startswith ci_eqb (chars "FROM") (lstrip isspace t)
  | [] => false
  end.

(** * Properties *)

(** ** Characters, case by case *)

Lemma all_ascii_complete : forall c, In c all_ascii.
Proof.
  intros c. rewrite <- (ascii_nat_embedding c). unfold all_ascii.
  apply in_map, in_seq. pose proof (nat_ascii_bounded c). lia.
Qed.

(** Two characters that [re.IGNORECASE] identifies are both word
    characters or both not, and have the same upper case. *)
Lemma tolower_class :
  forall y c, tolower y = tolower c ->
    isword y = isword c /\ upper_cp y = upper_cp c.
Proof.
  assert (H : forallb (fun y => forallb (fun c =>
            implb (Ascii.eqb (tolower y) (tolower c))
                  (Bool.eqb (isword y) (isword c) &&
                   codes_eqb (upper_cp y) (upper_cp c))) all_ascii) all_ascii
          = true) by (vm_compute; reflexivity).
  intros y c Hyc.
  rewrite forallb_forall in H. specialize (H y (all_ascii_complete y)).
  rewrite forallb_forall in H. specialize (H c (all_ascii_complete c)).
  apply Ascii.eqb_eq in Hyc. rewrite Hyc in H. simpl in H.
  apply andb_true_iff in H as [Hw Hu].
  apply Bool.eqb_prop in Hw. unfold codes_eqb in Hu.
  destruct (list_eq_dec N.eq_dec (upper_cp y) (upper_cp c)); [|discriminate].
  split; assumption.
Qed.

Lemma lit_eq_ignorecase :
  forall f c y, ignorecase f = true ->
    (lit_eq f c y = true <-> tolower y = tolower c).
Proof. intros f c y Hf. unfold lit_eq. rewrite Hf. apply Ascii.eqb_eq. Qed.

Lemma same_word_upper :
  forall kw w, same_word kw w -> upper w = upper (chars kw).
Proof.
  unfold same_word. intros kw w H.
  induction H as [|c y l l' Hcy _ IH]; [reflexivity|].
  simpl. rewrite IH. f_equal. apply tolower_class, Hcy.
Qed.

(** A keyword and a text that spells it begin, and end, with characters of
    the same kind. *)
Lemma same_word_first :
  forall kw w rest, same_word kw w -> chars kw <> [] ->
    word_at (w ++ rest) = word_at (chars kw).
Proof.
  unfold same_word. intros kw w rest H Hne.
  destruct H as [|c y l l' Hcy _]; [now elim Hne|].
  simpl. apply tolower_class, Hcy.
Qed.

Lemma same_word_last :
  forall kw w rest, same_word kw w -> chars kw <> [] ->
    word_at (rev w ++ rest) = word_at (rev (chars kw)).
Proof.
  unfold same_word. intros kw w rest H Hne.
  apply Forall2_flip in H.
  assert (Hr : Forall2 (fun c y => tolower y = tolower c) (rev (chars kw)) (rev w)).
  { clear Hne. induction H as [|y c l l' Hcy _ IH]; simpl; [constructor|].
    apply Forall2_app; [exact IH|]. constructor; [exact Hcy|constructor]. }
  destruct (rev (chars kw)) as [|c l] eqn:Hk.
  - apply (f_equal (@rev ascii)) in Hk. rewrite rev_involutive in Hk.
    now elim Hne.
  - inversion Hr as [|c' y l0 l' Hcy Hrest E1 E2]. simpl.
    apply tolower_class, Hcy.
Qed.

(** ** Lists *)

Lemma skipn_exact :
  forall (A : Type) (l1 l2 : list A), skipn (length l1) (l1 ++ l2) = l2.
Proof. intros A l1 l2. induction l1; simpl; auto. Qed.

Lemma firstn_exact :
  forall (A : Type) (l1 l2 : list A), firstn (length l1) (l1 ++ l2) = l1.
Proof. intros A l1 l2. induction l1; simpl; [reflexivity|]. now f_equal. Qed.

(** ** [str.strip] *)

Section StripFacts.
Variable A : Type.
Variable space : A -> bool.

Lemma forallb_rev :
  forall l : list A, forallb space (rev l) = forallb space l.
Proof.
  induction l as [|c l IH]; [reflexivity|].
  simpl. rewrite forallb_app, IH. simpl. rewrite andb_true_r. apply andb_comm.
Qed.

Lemma lstrip_split :
  forall s, exists ws, s = ws ++ lstrip space s /\ forallb space ws = true.
Proof.
  induction s as [|c s (ws & E & H)]; [exists []; auto|].
  simpl. destruct (space c) eqn:Hc.
  - exists (c :: ws). simpl. rewrite Hc, <- E. auto.
  - exists []. auto.
Qed.

(** [strip] removes a run of whitespace at each end, nothing else. *)
Lemma strip_split :
  forall s, exists lead trail,
    s = lead ++ strip space s ++ trail /\
    forallb space lead = true /\ forallb space trail = true.
Proof.
  intros s. destruct (lstrip_split s) as (lead & E & Hlead).
  destruct (lstrip_split (rev (lstrip space s))) as (ws & E' & Hws).
  exists lead, (rev ws). repeat split; [|exact Hlead|now rewrite forallb_rev].
  unfold strip, rstrip. rewrite <- rev_app_distr, <- E', rev_involutive. exact E.
Qed.
End StripFacts.

(** ** The matcher, construct by construct *)

Lemma orelse_some :
  forall (x y : option marks) ms,
    (x orelse y) = Some ms -> x = Some ms \/ y = Some ms.
Proof. intros [r|] y ms H; [left|right]; assumption. Qed.

Lemma orelse_live_l :
  forall x y : option marks, x <> None -> (x orelse y) <> None.
Proof. intros [r|] y H; [discriminate|now elim H]. Qed.

Lemma orelse_live_r :
  forall x y : option marks, y <> None -> (x orelse y) <> None.
Proof. intros [r|] y H; [discriminate|exact H]. Qed.

Lemma mark_some :
  forall s k b a ms, mark s k b a = Some ms ->
    exists ms', k b a = Some ms' /\ ms = (s, length b) :: ms'.
Proof.
  unfold mark. intros s k b a ms H.
  destruct (k b a) as [ms'|]; [|discriminate].
  injection H as <-. eauto.
Qed.

Lemma mark_live :
  forall s k b a, k b a <> None -> mark s k b a <> None.
Proof. unfold mark. intros s k b a H. destruct (k b a); [discriminate|exact H]. Qed.

Lemma rev_cons_app :
  forall (A : Type) (c : A) x b, rev x ++ c :: b = rev (c :: x) ++ b.
Proof. intros. simpl. rewrite <- app_assoc. reflexivity. Qed.

Section Literals.
Variable f : flags.
Hypothesis icase : ignorecase f = true.

Lemma lits_of_some :
  forall kw k b a ms, m f (lits_of kw) k b a = Some ms ->
    exists w a', a = w ++ a' /\
      Forall2 (fun c y => tolower y = tolower c) kw w /\
      k (rev w ++ b) a' = Some ms.
Proof.
  induction kw as [|c kw IH]; intros k b a ms H; simpl in H.
  - exists [], a. repeat split; [constructor|exact H].
  - destruct a as [|y a]; [discriminate|].
    destruct (lit_eq f c y) eqn:Hcy; [|discriminate].
    apply IH in H as (w & a' & -> & Hw & H).
    exists (y :: w), a'. rewrite <- rev_cons_app.
    repeat split; [|exact H].
    constructor; [exact (proj1 (@lit_eq_ignorecase f c y icase) Hcy)|exact Hw].
Qed.

Lemma lits_of_eq :
  forall kw w k b a', Forall2 (fun c y => tolower y = tolower c) kw w ->
    m f (lits_of kw) k b (w ++ a') = k (rev w ++ b) a'.
Proof.
  intros kw w k b a' H. revert b.
  induction H as [|c y kw w Hcy _ IH]; intros b; [reflexivity|].
  simpl. rewrite (proj2 (@lit_eq_ignorecase f c y icase) Hcy).
  rewrite IH. rewrite <- app_assoc. reflexivity.
Qed.

(** A keyword matched: the text spells it. *)
Lemma lits_some :
  forall kw k b a ms, m f (lits kw) k b a = Some ms ->
    exists w a', a = w ++ a' /\ same_word kw w /\ k (rev w ++ b) a' = Some ms.
Proof. intros kw. apply lits_of_some. Qed.

(** A text that spells the keyword is matched. *)
Lemma lits_eq :
  forall kw w k b a', same_word kw w ->
    m f (lits kw) k b (w ++ a') = k (rev w ++ b) a'.
Proof. intros kw. apply lits_of_eq. Qed.
End Literals.

Section RepeatFacts.
Variable p : ascii -> bool.
Variable k : cont.

Lemma rep_lazy_some :
  forall a min b ms, rep_lazy p k min b a = Some ms ->
    exists x a', a = x ++ a' /\ forallb p x = true /\ min <= length x /\
      k (rev x ++ b) a' = Some ms.
Proof.
  induction a as [|c a IH]; intros min b ms H.
  - destruct min; simpl in H; [|discriminate].
    destruct (k b []) eqn:Hk; [|discriminate].
    exists [], []. repeat split; [lia|]. simpl. congruence.
  - assert (Hmore : (if p c then rep_lazy p k (pred min) (c :: b) a else None)
                    = Some ms ->
            exists x a', c :: a = x ++ a' /\ forallb p x = true /\
              min <= length x /\ k (rev x ++ b) a' = Some ms).
    { intros Hm. destruct (p c) eqn:Hc; [|discriminate].
      apply IH in Hm as (x & a' & -> & Hx & Hlen & Hk).
      exists (c :: x), a'. rewrite <- rev_cons_app.
      repeat split; [simpl; rewrite Hc; exact Hx|simpl; lia|exact Hk]. }
    destruct min; simpl in H; [|exact (Hmore H)].
    destruct (k b (c :: a)) eqn:Hk; [|exact (Hmore H)].
    exists [], (c :: a). repeat split; [lia|]. simpl. congruence.
Qed.

Lemma rep_lazy_live :
  forall x a' min b, forallb p x = true -> min <= length x ->
    k (rev x ++ b) a' <> None -> rep_lazy p k min b (x ++ a') <> None.
Proof.
  induction x as [|c x IH]; intros a' min b Hx Hlen Hk.
  - simpl in Hlen. assert (min = 0) as -> by lia. simpl in Hk.
    destruct a'; simpl; destruct (k b _); congruence.
  - simpl in Hx. apply andb_true_iff in Hx as [Hc Hx].
    rewrite <- rev_cons_app in Hk.
    assert (Hmore : rep_lazy p k (pred min) (c :: b) (x ++ a') <> None).
    { apply IH; [exact Hx|simpl in Hlen; lia|exact Hk]. }
    destruct min; simpl; rewrite Hc; [|exact Hmore].
    destruct (k b (c :: x ++ a')); [discriminate|exact Hmore].
Qed.

Lemma rep_greedy_some :
  forall a min b ms, rep_greedy p k min b a = Some ms ->
    exists x a', a = x ++ a' /\ forallb p x = true /\ min <= length x /\
      k (rev x ++ b) a' = Some ms.
Proof.
  induction a as [|c a IH]; intros min b ms H.
  - destruct min; simpl in H; [|discriminate].
    exists [], []. repeat split; [lia|exact H].
  - assert (Hstop : match min with 0 => k b (c :: a) | S _ => None end = Some ms ->
            exists x a', c :: a = x ++ a' /\ forallb p x = true /\
              min <= length x /\ k (rev x ++ b) a' = Some ms).
    { intros Hs. destruct min; [|discriminate].
      exists [], (c :: a). repeat split; [lia|exact Hs]. }
    simpl in H. destruct (p c) eqn:Hc; [|exact (Hstop H)].
    destruct (rep_greedy p k (pred min) (c :: b) a) eqn:Hg; [|exact (Hstop H)].
    injection H as ->.
    apply IH in Hg as (x & a' & -> & Hx & Hlen & Hk).
    exists (c :: x), a'. rewrite <- rev_cons_app.
    repeat split; [simpl; rewrite Hc; exact Hx|simpl; lia|exact Hk].
Qed.

Lemma rep_greedy_live :
  forall x a' min b, forallb p x = true -> min <= length x ->
    k (rev x ++ b) a' <> None -> rep_greedy p k min b (x ++ a') <> None.
Proof.
  induction x as [|c x IH]; intros a' min b Hx Hlen Hk.
  - simpl in Hlen. assert (min = 0) as -> by lia. simpl in Hk.
    destruct a' as [|c a']; simpl; [exact Hk|].
    destruct (p c); [|exact Hk].
    destruct (rep_greedy p k 0 (c :: b) a'); [discriminate|exact Hk].
  - simpl in Hx. apply andb_true_iff in Hx as [Hc Hx].
    rewrite <- rev_cons_app in Hk. simpl. rewrite Hc.
    apply orelse_live_l. apply IH; [exact Hx|simpl in Hlen; lia|exact Hk].
Qed.
End RepeatFacts.

(** ** [re.search] *)

Lemma search_some :
  forall f r a b ms, search_from f r b a = Some ms ->
    exists x a', a = x ++ a' /\ match_here f r (rev x ++ b) a' = Some ms.
Proof.
  induction a as [|c a IH]; intros b ms H; simpl in H.
  - destruct (match_here f r b []) eqn:Hm; [|discriminate].
    exists [], []. split; [reflexivity|]. simpl. congruence.
  - destruct (match_here f r b (c :: a)) eqn:Hm.
    + exists [], (c :: a). split; [reflexivity|]. simpl. congruence.
    + apply IH in H as (x & a' & -> & H).
      exists (c :: x), a'. rewrite <- rev_cons_app. split; [reflexivity|exact H].
Qed.

Lemma search_live :
  forall f r x a' b, match_here f r (rev x ++ b) a' <> None ->
    search_from f r b (x ++ a') <> None.
Proof.
  induction x as [|c x IH]; intros a' b H.
  - simpl in H. destruct a'; simpl; destruct (match_here f r b _); congruence.
  - rewrite <- rev_cons_app in H. simpl.
    destruct (match_here f r b (c :: x ++ a')); [discriminate|].
    apply IH, H.
Qed.

(** ** [re.sub] on the operators *)




(** ** The inversion table *)

(** C2, counterexample: flipping [!=] twice gives [<>], not [!=]. *)
Lemma flip_twice_not_identity :
  flip_operator (flip_operator "!=") <> "!=".
Proof. vm_compute. discriminate. Qed.

(** C2, amended: on each of the seven operators of the table, flipping
    twice gives the operator back, except on [!=], where it gives the
    other spelling of the same operator, [<>]. *)
Theorem flip_twice :
  Forall (fun op =>
            flip_operator (flip_operator op) =
            if String.eqb op "!=" then "<>" else op)
         (map fst flip_map).
Proof. repeat constructor. Qed.

(** ** The aggregate suggester, path by path *)

(** The gates passed and the probe answered: the suggestion is built from
    the numeric columns of the answer. *)
Lemma aggregate_run :
  forall self sql_command select_match cur descs,
    startswith N.eqb (codes "SELECT") (strip isspace_cp (upper (chars sql_command))) = true ->
    re_search IS select_re (chars sql_command) = Some select_match ->
    re_search I_ aggregate_re (chars sql_command) = None ->
    list_eqb (strip isspace (m_group (chars sql_command) select_match 1)) star = false ->
    cursor self = Some cur ->
    cur sql_command = Runs (Some descs) true ->
    numeric_columns descs <> [] ->
    suggest_aggregate_query self sql_command =
    Return (Some ("SELECT " ++ join ", " (map agg_column (numeric_columns descs)) ++
                  text (skipn (m_end select_match 1) (chars sql_command)))%string).
Proof.
  intros self sql ms cur descs Hsel Hm Hagg Hstar Hcur Hrun Hnum.
  unfold suggest_aggregate_query, execute.
  rewrite Hsel, Hm, Hagg, Hstar, Hcur, Hrun.
  cbv beta iota delta [negb bind try_except_Error fetchall].
  destruct descs as [|d descs]; [now elim Hnum|].
  fold (numeric_columns (d :: descs)).
  destruct (numeric_columns (d :: descs)); [now elim Hnum|reflexivity].
Qed.

(** A suggestion was returned: the gates were passed, the probe answered,
    and the suggestion is the one [aggregate_run] builds. *)
Lemma aggregate_inv :
  forall self sql_command out,
    suggest_aggregate_query self sql_command = Return (Some out) ->
    exists select_match cur descs,
      re_search IS select_re (chars sql_command) = Some select_match /\
      cursor self = Some cur /\
      cur sql_command = Runs (Some descs) true /\
      numeric_columns descs <> [] /\
      out = ("SELECT " ++ join ", " (map agg_column (numeric_columns descs)) ++
             text (skipn (m_end select_match 1) (chars sql_command)))%string.
Proof.
  intros self sql out. unfold suggest_aggregate_query, execute.
  destruct (negb _); [discriminate|].
  destruct (re_search IS select_re (chars sql)) as [ms|]; [|discriminate].
  destruct (re_search I_ aggregate_re (chars sql)); [discriminate|].
  destruct (list_eqb _ _); [discriminate|].
  destruct (cursor self) as [cur|]; [|discriminate].
  destruct (cur sql) as [|[[|d descs]|] []] eqn:Hrun;
    cbv beta iota delta [bind try_except_Error fetchall]; try discriminate.
  fold (numeric_columns (d :: descs)).
  destruct (numeric_columns (d :: descs)) as [|c cols] eqn:Hnum; [discriminate|].
  intros H. injection H as <-.
  exists ms, cur, (d :: descs). rewrite Hnum. repeat split; congruence.
Qed.

(** Without a suggestion the function returns [None] or raises
    [AttributeError]; it raises only when there is no cursor. *)
Lemma aggregate_raises_only_without_cursor :
  forall self sql_command e,
    suggest_aggregate_query self sql_command = Raise e ->
    e = AttributeError /\ cursor self = None.
Proof.
  intros self sql e. unfold suggest_aggregate_query, execute.
  destruct (negb _); [discriminate|].
  destruct (re_search IS select_re (chars sql)) as [ms|]; [|discriminate].
  destruct (re_search I_ aggregate_re (chars sql)); [discriminate|].
  destruct (list_eqb _ _); [discriminate|].
  destruct (cursor self) as [cur|]; simpl.
  - destruct (cur sql) as [|[[|d descs]|] []];
      cbv beta iota delta [bind try_except_Error fetchall]; try discriminate.
    all: fold (numeric_columns (d :: descs));
      destruct (numeric_columns (d :: descs)); discriminate.
  - intros H. injection H as <-. split; reflexivity.
Qed.

(** C3, counterexample: with column [a] of type int4 and column [b] of
    type text, the suggestion for [SELECT a, b FROM t] is not the string
    with upper-case [AS]. *)
Lemma aggregate_a_b_not_upper_as :
  suggest_aggregate_query
    (connected (describes [{| name := "a"; type_code := int4 |};
                           {| name := "b"; type_code := text_oid |}]))
    "SELECT a, b FROM t"
  <> Return (Some "SELECT COUNT(a) AS count_a, SUM(a) AS sum_a, AVG(a) AS avg_a FROM t").
Proof. vm_compute. discriminate. Qed.

(** C3, amended: for [SELECT a, b FROM t], when the executor reports
    column [a] with a numeric type tag and column [b] with a non-numeric
    one, the suggestion is exactly
    [SELECT COUNT(a) as count_a, SUM(a) as sum_a, AVG(a) as avg_a FROM t],
    with [as] in lower case: [b] is dropped and [ FROM t] is untouched. *)
Theorem aggregate_a_b :
  forall self cur ta tb,
    cursor self = Some cur ->
    cur "SELECT a, b FROM t" =
      Runs (Some [{| name := "a"; type_code := ta |};
                  {| name := "b"; type_code := tb |}]) true ->
    is_numeric ta = true ->
    is_numeric tb = false ->
    suggest_aggregate_query self "SELECT a, b FROM t" =
    Return (Some "SELECT COUNT(a) as count_a, SUM(a) as sum_a, AVG(a) as avg_a FROM t").
Proof.
  intros self cur ta tb Hcur Hrun Ha Hb.
  assert (Hnum : numeric_columns [{| name := "a"; type_code := ta |};
                                  {| name := "b"; type_code := tb |}] = ["a"]).
  { unfold numeric_columns. simpl. rewrite Ha, Hb. reflexivity. }
  rewrite (@aggregate_run self "SELECT a, b FROM t"
             [(0, 0); (2, 7); (3, 11); (1, 16)] cur
             [{| name := "a"; type_code := ta |};
              {| name := "b"; type_code := tb |}]);
    try (vm_compute; reflexivity); try eassumption.
  - rewrite Hnum. reflexivity.
  - rewrite Hnum. discriminate.
Qed.

Lemma aggregate_a_b_witness :
  suggest_aggregate_query
    (connected (describes [{| name := "a"; type_code := int4 |};
                           {| name := "b"; type_code := text_oid |}]))
    "SELECT a, b FROM t"
  = Return (Some "SELECT COUNT(a) as count_a, SUM(a) as sum_a, AVG(a) as avg_a FROM t").
Proof.
  apply (@aggregate_a_b
           (connected (describes [{| name := "a"; type_code := int4 |};
                                  {| name := "b"; type_code := text_oid |}]))
           (describes [{| name := "a"; type_code := int4 |};
                       {| name := "b"; type_code := text_oid |}])
           int4 text_oid); reflexivity.
Defined.

(** ** Errors of the probing execution *)

(** C6: when the probing execution raises a database error, in [execute]
    or in [fetchall], [suggest_aggregate_query] returns [None]: the error
    does not reach the caller. *)
Theorem probe_error_absorbed :
  forall self sql_command,
    probe_fails self sql_command ->
    suggest_aggregate_query self sql_command = Return None.
Proof.
  intros self sql (cur & Hcur & Hrun).
  unfold suggest_aggregate_query, execute.
  destruct (negb _); [reflexivity|].
  destruct (re_search IS select_re (chars sql)) as [ms|]; [|reflexivity].
  destruct (re_search I_ aggregate_re (chars sql)); [reflexivity|].
  destruct (list_eqb _ _); [reflexivity|].
  rewrite Hcur. destruct Hrun as [-> | (d & ->)]; simpl; [reflexivity|].
  destruct d as [[|c descs]|]; reflexivity.
Qed.

Lemma probe_error_absorbed_witness :
  probe_fails (connected failing_cursor) "SELECT a FROM t" /\
  suggest_aggregate_query (connected failing_cursor) "SELECT a FROM t" = Return None.
Proof.
  assert (H : probe_fails (connected failing_cursor) "SELECT a FROM t").
  { exists failing_cursor. split; [reflexivity|left; reflexivity]. }
  split; [exact H|].
  exact (@probe_error_absorbed (connected failing_cursor) "SELECT a FROM t" H).
Defined.

(** ** The aggregate keywords *)

(** A statement that holds an aggregate keyword as a whole word is found
    by the pattern of the third gate. *)
Lemma aggregate_word_found :
  forall sql_command, already_aggregated sql_command ->
    re_search I_ aggregate_re (chars sql_command) <> None.
Proof.
  intros sql (kw & Hin & pre & w & post & -> & Hw & Hpre & Hpost).
  apply search_live. rewrite app_nil_r.
  assert (Hne : chars kw <> [] /\ word_at (chars kw) = true /\
                word_at (rev (chars kw)) = true).
  { simpl in Hin.
    repeat (destruct Hin as [<-|Hin]; [repeat split; discriminate|]).
    contradiction. }
  destruct Hne as (Hne & Hfirst & Hlast).
  unfold match_here, aggregate_re. cbn [m].
  apply mark_live. unfold at_boundary.
  rewrite Hpre, (same_word_first post Hw Hne), Hfirst. cbn [xorb].
  apply mark_live.
  assert (Hk : forall b, mark (2 * 1 + 1)
                 (fun b a => if at_boundary b a
                             then mark (2 * 0 + 1) (fun _ _ => Some []) b a
                             else None) (rev w ++ b) post <> None).
  { intros b. apply mark_live. unfold at_boundary.
    rewrite Hpost, (same_word_last b Hw Hne), Hlast. discriminate. }
  simpl in Hin.
  repeat (destruct Hin as [<-|Hin];
          [repeat (first [ apply orelse_live_l;
                           rewrite (lits_eq I_ eq_refl _ _ _ Hw); apply Hk
                         | rewrite (lits_eq I_ eq_refl _ _ _ Hw); apply Hk
                         | apply orelse_live_r ])|]).
  contradiction.
Qed.

(** C8: a statement that holds COUNT, SUM, AVG, MIN, MAX or GROUP BY as a
    whole word, in any case, gets no aggregate suggestion, whatever the
    state of the manager and whatever the other gates say. *)
Theorem aggregated_statement_no_suggestion :
  forall self sql_command,
    already_aggregated sql_command ->
    suggest_aggregate_query self sql_command = Return None.
Proof.
  intros self sql H. apply aggregate_word_found in H.
  unfold suggest_aggregate_query.
  destruct (negb _); [reflexivity|].
  destruct (re_search IS select_re (chars sql)); [|reflexivity].
  destruct (re_search I_ aggregate_re (chars sql)); [reflexivity|now elim H].
Qed.

Lemma aggregated_statement_no_suggestion_witness :
  already_aggregated "SELECT count(x) FROM t" /\
  suggest_aggregate_query
    (connected (describes [{| name := "count"; type_code := 20 |}]))
    "SELECT count(x) FROM t" = Return None.
Proof.
  assert (H : already_aggregated "SELECT count(x) FROM t").
  { exists "COUNT". split; [left; reflexivity|].
    exists (chars "SELECT "), (chars "count"), (chars "(x) FROM t").
    repeat split. repeat constructor. }
  split; [exact H|].
  exact (@aggregated_statement_no_suggestion
           (connected (describes [{| name := "count"; type_code := 20 |}]))
           "SELECT count(x) FROM t" H).
Defined.

(** ** The output of the aggregate rewrite, part by part *)

(** What a match of the SELECT pattern says about the statement. *)
Lemma select_match_inv :
  forall s ms, re_search IS select_re s = Some ms ->
    exists pre kw ws0 proj ws1 fromkw rest,
      s = pre ++ kw ++ ws0 ++ proj ++ ws1 ++ fromkw ++ rest /\
      same_word "SELECT" kw /\ same_word "FROM" fromkw /\
      blank ws0 /\ ws0 <> [] /\ blank ws1 /\ ws1 <> [] /\
      m_end ms 1 = length (pre ++ kw ++ ws0 ++ proj).
Proof.
  intros s ms H. apply search_some in H as (pre & a & -> & H).
  rewrite app_nil_r in H. unfold match_here, select_re in H. cbn [m] in H.
  apply mark_some in H as (ms0 & H & ->).
  apply (lits_some IS eq_refl) in H as (kw & a1 & -> & Hkw & H).
  apply rep_greedy_some in H as (ws0 & a2 & -> & Hws0 & Hn0 & H).
  apply mark_some in H as (ms1 & H & ->).
  apply rep_lazy_some in H as (proj & a3 & -> & _ & _ & H).
  apply mark_some in H as (ms2 & H & ->).
  apply rep_greedy_some in H as (ws1 & a4 & -> & Hws1 & Hn1 & H).
  apply (lits_some IS eq_refl) in H as (fromkw & rest & -> & Hfrom & H).
  exists pre, kw, ws0, proj, ws1, fromkw, rest.
  repeat split; try assumption.
  - intros ->. simpl in Hn0. lia.
  - intros ->. simpl in Hn1. lia.
  - unfold m_end. simpl. rewrite !length_app, !length_rev. lia.
Qed.

(** C5, counterexample: the keyword, the whitespace after it and the text
    before it stand outside the projection list, and the output does not
    keep them: it starts with [SELECT] in upper case and one space. *)
Lemma aggregate_prefix_rewritten :
  ~ exists projection,
      suggest_aggregate_query
        (connected (describes [{| name := "a"; type_code := int4 |}]))
        "select  a FROM t"
      = Return (Some ("select" ++ projection ++ "FROM t")%string).
Proof. intros (p & H). vm_compute in H. discriminate. Qed.


(** ** The WHERE clause *)

Lemma at_end_inv :
  forall a, at_end a = true -> a = [] \/ a = chars nl.
Proof.
  intros [|c [|d a]] H; simpl in H; [left; reflexivity| |discriminate].
  apply Ascii.eqb_eq in H. subst c. right. reflexivity.
Qed.

(** The end of the clause body, as the last part of the pattern finds it. *)
Lemma clause_end_some :
  forall k b a ms, m IS clause_end_re k b a = Some ms -> clause_stop a.
Proof.
  intros k b a ms H. unfold clause_end_re in H. cbn [m] in H.
  assert (Hkw : forall kw k', In kw clause_words ->
            (if at_boundary b a then m IS (lits kw) k' b a else None) = Some ms ->
            clause_stop a).
  { intros kw k' Hin Hm. destruct (at_boundary b a); [|discriminate].
    apply (lits_some IS eq_refl) in Hm as (w & a' & -> & Hw & _).
    right. right. exists kw, w, a'. auto. }
  apply orelse_some in H as [H|H]; [apply (Hkw _ _ (or_introl eq_refl) H)|].
  apply orelse_some in H as [H|H];
    [apply (Hkw _ _ (or_intror (or_introl eq_refl)) H)|].
  apply orelse_some in H as [H|H];
    [apply (Hkw _ _ (or_intror (or_intror (or_introl eq_refl))) H)|].
  destruct (at_end a) eqn:He; [|discriminate].
  apply at_end_inv in He. destruct He as [->| ->]; [left|right; left]; reflexivity.
Qed.

Lemma clause_end_at_end :
  forall k b, m IS clause_end_re k b [] = k b [].
Proof.
  intros k b. unfold clause_end_re. cbn [m].
  destruct (at_boundary b []); reflexivity.
Qed.

(** What a match of the WHERE pattern says about the statement. *)
Lemma where_match_inv :
  forall s ms, re_search IS where_re s = Some ms ->
    exists pre kw body post,
      s = pre ++ kw ++ body ++ post /\ same_word "WHERE" kw /\
      word_at (rev pre) = false /\ word_at (body ++ post) = false /\
      clause_stop post /\
      m_start ms 1 = length (pre ++ kw) /\
      m_end ms 1 = length (pre ++ kw ++ body).
Proof.
  intros s ms H. apply search_some in H as (pre & a & -> & H).
  rewrite app_nil_r in H. unfold match_here, where_re in H. cbn [m] in H.
  apply mark_some in H as (ms0 & H & ->).
  destruct (at_boundary (rev pre) a) eqn:Hb1; [|discriminate].
  apply (lits_some IS eq_refl) in H as (kw & a1 & -> & Hkw & H).
  destruct (at_boundary (rev kw ++ rev pre) a1) eqn:Hb2; [|discriminate].
  apply mark_some in H as (ms1 & H & ->).
  apply rep_lazy_some in H as (body & post & -> & _ & _ & H).
  apply mark_some in H as (ms2 & H & ->).
  apply clause_end_some in H.
  unfold at_boundary in Hb1, Hb2.
  rewrite (same_word_first _ Hkw) in Hb1 by discriminate.
  rewrite (same_word_last _ Hkw) in Hb2 by discriminate.
  exists pre, kw, body, post. repeat split; try assumption.
  - now destruct (word_at (rev pre)).
  - now destruct (word_at (body ++ post)).
  - unfold m_start. simpl. rewrite !length_app, !length_rev. lia.
  - unfold m_end. simpl. rewrite !length_app, !length_rev. lia.
Qed.

Lemma forallb_any :
  forall x, forallb (in_class IS CAny) x = true.
Proof. induction x; simpl; auto. Qed.

(** A whole word WHERE is found by the pattern. *)
Lemma where_word_found :
  forall s, whole_word_in "WHERE" s -> re_search IS where_re s <> None.
Proof.
  intros s (pre & w & post & -> & Hw & Hpre & Hpost).
  apply search_live. rewrite app_nil_r.
  unfold match_here, where_re. cbn [m].
  apply mark_live. unfold at_boundary.
  rewrite Hpre, (same_word_first post Hw) by discriminate. cbn [xorb word_at chars list_ascii_of_string].
  change (isword "W") with true. cbn [xorb].
  rewrite (lits_eq IS eq_refl _ _ _ Hw).
  rewrite Hpost, (same_word_last (rev pre) Hw) by discriminate.
  change (word_at (rev (chars "WHERE"))) with true. cbn [xorb].
  apply mark_live.
  rewrite <- (app_nil_r post).
  apply rep_lazy_live; [apply forallb_any|lia|].
  apply mark_live. rewrite clause_end_at_end. apply mark_live. discriminate.
Qed.

Lemma startswith_app :
  forall p l : list N, startswith N.eqb p (p ++ l) = true.
Proof. induction p; intros l; simpl; [reflexivity|]. now rewrite N.eqb_refl, IHp. Qed.

Lemma contains_head :
  forall p s : list N, startswith N.eqb p s = true -> contains N.eqb p s = true.
Proof. intros p [|c s] H; simpl; rewrite H; reflexivity. Qed.

Lemma contains_app :
  forall p l1 l2 : list N, contains N.eqb p (l1 ++ p ++ l2) = true.
Proof.
  intros p l1 l2. induction l1 as [|c l1 IH].
  - cbn [app]. apply contains_head, startswith_app.
  - simpl. rewrite IH. apply orb_true_r.
Qed.

Lemma where_in_upper :
  forall s, whole_word_in "WHERE" s ->
    contains N.eqb (codes "WHERE") (upper s) = true.
Proof.
  intros s (pre & w & post & -> & Hw & _).
  unfold upper. rewrite !flat_map_app. fold (upper w).
  rewrite (same_word_upper Hw).
  change (upper (chars "WHERE")) with (codes "WHERE").
  apply contains_app.
Qed.

(** C9: [suggest_flipped_conditions] gives a suggestion exactly when the
    statement holds WHERE as a whole word, in any case. A clause body
    without any operator is still a suggestion (the statement itself), and
    WHERE inside a longer word gives none. *)
Theorem flipped_iff_whole_word_where :
  forall self sql_command,
    (suggest_flipped_conditions self sql_command <> None <->
     whole_word_in "WHERE" (chars sql_command)) /\
    suggest_flipped_conditions self "SELECT * FROM t WHERE active" =
      Some "SELECT * FROM t WHERE active" /\
    suggest_flipped_conditions self "SELECT nowhere FROM t" = None.
Proof.
  intros self sql. split; [|split; vm_compute; reflexivity].
  unfold suggest_flipped_conditions. split.
  - intros H. destruct (negb _); [now elim H|].
    destruct (re_search IS where_re (chars sql)) as [ms|] eqn:Hm; [|now elim H].
    apply where_match_inv in Hm as (pre & kw & body & post & E & Hkw & Hpre & Hpost & _).
    exists pre, kw, (body ++ post). auto.
  - intros H. rewrite (where_in_upper H). simpl negb. cbv iota.
    apply where_word_found in H.
    destruct (re_search IS where_re (chars sql)); [discriminate|now elim H].
Qed.

(** ** The flip at the statement of the specification *)

(** C1, at its statement: the flip of
    [SELECT * FROM t WHERE x >= 5 AND y != 3 ORDER BY x] inverts both
    operators, [>=] as one token, and leaves the text up to WHERE and from
    ORDER BY on unchanged, but the space between the clause body and
    ORDER BY is lost: the result reads [... y = 3ORDER BY x]. *)
Theorem flipped_conditions_order_by :
  forall self,
    suggest_flipped_conditions self
      "SELECT * FROM t WHERE x >= 5 AND y != 3 ORDER BY x"
    = Some "SELECT * FROM t WHERE x < 5 AND y = 3ORDER BY x".
Proof. intros self. vm_compute. reflexivity. Qed.

(** ** The output of the flip, part by part *)



(** ** The facade *)

Lemma aggregate_truthy :
  forall self sql_command out,
    suggest_aggregate_query self sql_command = Return (Some out) ->
    truthy (Some out) = true.
Proof.
  intros self sql out H.
  apply aggregate_inv in H as (ms & cur & descs & _ & _ & _ & _ & ->).
  reflexivity.
Qed.

Lemma flipped_truthy :
  forall self sql_command out,
    suggest_flipped_conditions self sql_command = Some out ->
    truthy (Some out) = true.
Proof.
  intros self sql out H. unfold suggest_flipped_conditions in H.
  destruct (negb _); [discriminate|].
  destruct (re_search IS where_re (chars sql)) as [ms|]; [|discriminate].
  injection H as <-.
  destruct (firstn (m_start ms 1) (chars sql)); reflexivity.
Qed.

(** C7: when both suggesters give a result for a statement, the list of
    suggestions has exactly two entries, Aggregate Query first and Flipped
    Conditions second, each holding what its suggester returned for that
    same statement; they are printed in that order. *)
Theorem both_suggestions_in_order :
  forall self sql_command agg_query flipped_query,
    suggest_aggregate_query self sql_command = Return (Some agg_query) ->
    suggest_flipped_conditions self sql_command = Some flipped_query ->
    let first := {| title := "Aggregate Query"; query := agg_query;
                    rationale := aggregate_rationale |} in
    let second := {| title := "Flipped Conditions"; query := flipped_query;
                     rationale := flipped_rationale |} in
    gather_suggestions self sql_command = Return [first; second] /\
    exists tail,
      print_query_suggestions self sql_command =
      Return ([(nl ++ "--- Query Suggestions ---")%string] ++
              print_suggestion first ++ print_suggestion second ++
              [times "-" 60] ++ tail).
Proof.
  intros self sql a f Ha Hf first second.
  assert (Hg : gather_suggestions self sql = Return [first; second]).
  { unfold gather_suggestions, suggestion_of.
    rewrite Ha. cbn [bind]. rewrite Hf.
    rewrite (aggregate_truthy _ _ Ha), (flipped_truthy _ _ Hf). reflexivity. }
  split; [exact Hg|].
  unfold print_query_suggestions. rewrite Hg. cbn [bind].
  destruct (connection self), (cursor self); eexists;
    cbn [flat_map app]; rewrite <- ?app_assoc; cbn [app];
    try reflexivity; rewrite app_nil_r; reflexivity.
Qed.

Lemma both_suggestions_in_order_witness :
  gather_suggestions
    (connected (describes [{| name := "a"; type_code := int4 |}]))
    "SELECT a FROM t WHERE a > 1"
  = Return
      [{| title := "Aggregate Query";
          query := "SELECT COUNT(a) as count_a, SUM(a) as sum_a, AVG(a) as avg_a FROM t WHERE a > 1";
          rationale := aggregate_rationale |};
       {| title := "Flipped Conditions";
          query := "SELECT a FROM t WHERE a <= 1";
          rationale := flipped_rationale |}].
Proof.
  apply (@both_suggestions_in_order
           (connected (describes [{| name := "a"; type_code := int4 |}]))
           "SELECT a FROM t WHERE a > 1"
           "SELECT COUNT(a) as count_a, SUM(a) as sum_a, AVG(a) as avg_a FROM t WHERE a > 1"
           "SELECT a FROM t WHERE a <= 1");
    vm_compute; reflexivity.
Defined.

(** ** A manager that never connected *)

(** C4, at a manager that never connected: [suggest_aggregate_query] and
    [print_query_suggestions] raise [AttributeError] on a plain SELECT. *)
Theorem suggestions_raise_without_cursor :
  suggest_aggregate_query init "SELECT a FROM t" = Raise AttributeError /\
  print_query_suggestions init "SELECT a FROM t" = Raise AttributeError.
Proof. split; vm_compute; reflexivity. Qed.

(** * Further properties *)

(** ** The first match and the shortest reach *)

Lemma search_here :
  forall f r b a ms, match_here f r b a = Some ms -> search_from f r b a = Some ms.
Proof. intros f r b [|c a] ms H; simpl; rewrite H; reflexivity. Qed.


Section RepeatFirst.
Variable p : ascii -> bool.
Variable k : cont.


Lemma rep_lazy_here :
  forall a b ms, k b a = Some ms -> rep_lazy p k 0 b a = Some ms.
Proof. intros [|c a] b ms H; simpl; rewrite H; reflexivity. Qed.

Lemma rep_lazy_next :
  forall c a b, k b (c :: a) = None -> p c = true ->
    rep_lazy p k 0 b (c :: a) = rep_lazy p k 0 (c :: b) a.
Proof. intros c a b H Hc. simpl. rewrite H, Hc. reflexivity. Qed.

(** The greedy repetition takes a whole run when the continuation accepts
    the text after it. *)
Lemma rep_greedy_longest :
  forall x rest min b ms, forallb p x = true -> min <= length x ->
    (forall c r, rest = c :: r -> p c = false) ->
    k (rev x ++ b) rest = Some ms -> rep_greedy p k min b (x ++ rest) = Some ms.
Proof.
  induction x as [|c x IH]; intros rest min b ms Hx Hlen Hstop Hk.
  - simpl in Hlen. assert (min = 0) as -> by lia. simpl in Hk.
    destruct rest as [|c r]; simpl; [exact Hk|].
    rewrite (Hstop c r eq_refl). exact Hk.
  - simpl in Hx. apply andb_true_iff in Hx as [Hc Hx].
    rewrite <- rev_cons_app in Hk. simpl. rewrite Hc.
    rewrite (IH rest (pred min) (c :: b) ms Hx); [reflexivity| |exact Hstop|exact Hk].
    simpl in Hlen. lia.
Qed.
End RepeatFirst.

(** ** Characters and [str.upper] *)

Lemma space_facts :
  forall c, isspace c = true ->
    isword c = false /\ upper_cp c = [code c].
Proof.
  assert (H : forallb (fun c => implb (isspace c)
                (negb (isword c) && codes_eqb (upper_cp c) [code c])) all_ascii
              = true) by (vm_compute; reflexivity).
  intros c Hc. rewrite forallb_forall in H.
  specialize (H c (all_ascii_complete c)). rewrite Hc in H. simpl in H.
  apply andb_true_iff in H as [Hw Hu]. unfold codes_eqb in Hu.
  destruct (list_eq_dec N.eq_dec (upper_cp c) [code c]); [|discriminate].
  split; [now destruct (isword c)|assumption].
Qed.

(** The upper case of a character that is not whitespace starts with a
    code point that is not whitespace. *)
Lemma upper_keeps_nonspace :
  forall c, isspace c = false ->
    exists n l, upper_cp c = n :: l /\ isspace_cp n = false.
Proof.
  assert (H : forallb (fun c => implb (negb (isspace c))
                match upper_cp c with
                | n :: _ => negb (isspace_cp n)
                | [] => false
                end) all_ascii = true) by (vm_compute; reflexivity).
  intros c Hc. rewrite forallb_forall in H.
  specialize (H c (all_ascii_complete c)). rewrite Hc in H. simpl in H.
  destruct (upper_cp c) as [|n l]; [discriminate|].
  exists n, l. split; [reflexivity|now destruct (isspace_cp n)].
Qed.

(** A character whose upper case starts with one of the letters of SELECT
    is that letter, in upper or lower case, or, for S, the sharp s, whose
    upper case is SS. *)
Lemma upper_letter :
  forall c L l, In L (codes "SELECT") -> upper_cp c = L :: l ->
    (l = [] /\ ci_eqb (ascii_of_N L) c = true) \/ (L = 83%N /\ l = [83%N]).
Proof.
  assert (H : forallb (fun c => forallb (fun L =>
                match upper_cp c with
                | L' :: l =>
                    implb (N.eqb L' L)
                      (codes_eqb l [] && ci_eqb (ascii_of_N L) c
                       || N.eqb L 83 && codes_eqb l [83%N])
                | [] => true
                end) (codes "SELECT")) all_ascii = true)
    by (vm_compute; reflexivity).
  intros c L l HL Hu. rewrite forallb_forall in H.
  specialize (H c (all_ascii_complete c)). rewrite forallb_forall in H.
  specialize (H L HL). rewrite Hu, N.eqb_refl in H. simpl in H.
  unfold codes_eqb in H.
  apply orb_true_iff in H as [H|H]; apply andb_true_iff in H as [H1 H2].
  - left. destruct (list_eq_dec N.eq_dec l []); [|discriminate]. auto.
  - right. apply N.eqb_eq in H1.
    destruct (list_eq_dec N.eq_dec l [83%N]); [|discriminate]. auto.
Qed.

Lemma upper_nonempty : forall c, upper_cp c <> [].
Proof.
  intros c. destruct (isspace c) eqn:Hc.
  - apply space_facts in Hc as [_ ->]. discriminate.
  - apply upper_keeps_nonspace in Hc as (n & l & -> & _). discriminate.
Qed.

(** Leading whitespace is the same before and after [upper]. *)
Lemma lstrip_upper :
  forall s, lstrip isspace_cp (upper s) = upper (lstrip isspace s).
Proof.
  induction s as [|c s IH]; [reflexivity|].
  simpl. destruct (isspace c) eqn:Hc.
  - destruct (space_facts c Hc) as [_ ->]. simpl.
    unfold isspace in Hc. rewrite Hc. exact IH.
  - destruct (upper_keeps_nonspace c Hc) as (n & l & E & Hn).
    cbn [upper flat_map]. rewrite E. cbn [app lstrip]. rewrite Hn. reflexivity.
Qed.

Section Prefixes.
Variable A : Type.
Variable eqb : A -> A -> bool.

Lemma startswith_app_r :
  forall p a x : list A, startswith eqb p a = true -> startswith eqb p (a ++ x) = true.
Proof.
  induction p as [|c p IH]; intros a x H; [reflexivity|].
  destruct a as [|y a]; [discriminate|]. simpl in *.
  apply andb_true_iff in H as [H1 H2]. rewrite H1. simpl. apply IH, H2.
Qed.

Lemma rstrip_prefix :
  forall (space : A -> bool) t, exists x, t = rstrip space t ++ x.
Proof.
  intros space t. unfold rstrip.
  destruct (lstrip_split space (rev t)) as (ws & E & _).
  exists (rev ws). rewrite <- rev_app_distr, <- E, rev_involutive. reflexivity.
Qed.

(** A text that spells the keyword, character by character under [eqb],
    starts any text it is a prefix of. *)
Lemma startswith_spelled :
  forall p w rest, Forall2 (fun c y => eqb c y = true) p w ->
    startswith eqb p (w ++ rest) = true.
Proof.
  intros p w rest H. induction H as [|c y p w Hcy _ IH]; [reflexivity|].
  simpl. rewrite Hcy. exact IH.
Qed.

Lemma contains_later :
  forall p l s, contains eqb p s = true -> contains eqb p (l ++ s) = true.
Proof.
  intros p l s H. induction l as [|c l IH]; [exact H|].
  simpl. rewrite IH. apply orb_true_r.
Qed.

Lemma contains_first :
  forall p s, startswith eqb p s = true -> contains eqb p s = true.
Proof. intros p [|c s] H; simpl; rewrite H; reflexivity. Qed.
End Prefixes.

(** One letter of the first gate: the statement has the letter, in some
    case, where its upper case has it. *)
Lemma select_gate_letter :
  forall L rest c t,
    In L (codes "SELECT") ->
    (L = 83%N -> exists n r, rest = n :: r /\ n <> 83%N) ->
    startswith N.eqb (L :: rest) (upper (c :: t)) = true ->
    ci_eqb (ascii_of_N L) c = true /\ startswith N.eqb rest (upper t) = true.
Proof.
  intros L rest c t HL Hrest Hs. simpl upper in Hs.
  destruct (upper_cp c) as [|L' l] eqn:Hu; [now elim (upper_nonempty c)|].
  simpl in Hs. apply andb_true_iff in Hs as [HLL Hs].
  apply N.eqb_eq in HLL. subst L'.
  destruct (upper_letter c HL Hu) as [[-> Hc]|[HS ->]]; [auto|].
  exfalso. destruct (Hrest HS) as (n & r & -> & Hn).
  simpl in Hs. apply andb_true_iff in Hs as [Hs _].
  apply N.eqb_eq in Hs. congruence.
Qed.

(** The first gate, read on the statement itself: past its leading
    whitespace the statement starts with the letters of SELECT. *)
Lemma select_gate_spelled :
  forall s,
    startswith N.eqb (codes "SELECT") (strip isspace_cp (upper s)) = true ->
    startswith ci_eqb (chars "SELECT") (lstrip isspace s) = true.
Proof.
  intros s H. unfold strip in H.
  destruct (rstrip_prefix isspace_cp (lstrip isspace_cp (upper s))) as (x & E).
  apply (startswith_app_r _ _ _ x) in H. rewrite <- E, lstrip_upper in H.
  generalize dependent (lstrip isspace s). clear. intros t H.
  change (codes "SELECT") with [83; 69; 76; 69; 67; 84]%N in H.
  assert (HL : forall L, In L [83; 69; 76; 69; 67; 84]%N -> In L (codes "SELECT"))
    by (intros L HL; exact HL).
  destruct t as [|c1 t]; [discriminate|].
  apply select_gate_letter in H as [H1 H];
    [|apply HL; simpl; tauto|intros _; exists 69%N, [76; 69; 67; 84]%N; split; [reflexivity|discriminate]].
  destruct t as [|c2 t]; [discriminate|].
  apply select_gate_letter in H as [H2 H]; [|apply HL; simpl; tauto|discriminate].
  destruct t as [|c3 t]; [discriminate|].
  apply select_gate_letter in H as [H3 H]; [|apply HL; simpl; tauto|discriminate].
  destruct t as [|c4 t]; [discriminate|].
  apply select_gate_letter in H as [H4 H]; [|apply HL; simpl; tauto|discriminate].
  destruct t as [|c5 t]; [discriminate|].
  apply select_gate_letter in H as [H5 H]; [|apply HL; simpl; tauto|discriminate].
  destruct t as [|c6 t]; [discriminate|].
  apply select_gate_letter in H as [H6 H]; [|apply HL; simpl; tauto|discriminate].
  cbn [startswith chars list_ascii_of_string].
  change (ascii_of_N 83) with "S"%char in H1.
  change (ascii_of_N 69) with "E"%char in H2, H4.
  change (ascii_of_N 76) with "L"%char in H3.
  change (ascii_of_N 67) with "C"%char in H5.
  change (ascii_of_N 84) with "T"%char in H6.
  rewrite H1, H2, H3, H4, H5, H6. reflexivity.
Qed.

(** ** Statements the aggregate suggester turns away *)

Lemma found_means_none :
  forall self sql_command,
    re_search I_ aggregate_re (chars sql_command) <> None ->
    suggest_aggregate_query self sql_command = Return None.
Proof.
  intros self sql H. unfold suggest_aggregate_query.
  destruct (negb _); [reflexivity|].
  destruct (re_search IS select_re (chars sql)); [|reflexivity].
  destruct (re_search I_ aggregate_re (chars sql)); [reflexivity|now elim H].
Qed.

Lemma same_word_spelled :
  forall kw w, same_word kw w ->
    Forall2 (fun c y => ci_eqb c y = true) (chars kw) w.
Proof.
  unfold same_word. intros kw w H.
  induction H as [|c y l l' Hcy _ IH]; constructor; [|exact IH].
  unfold ci_eqb. rewrite Hcy. apply Ascii.eqb_refl.
Qed.

(** A text that starts with a keyword does not start with whitespace. *)
Lemma space_not_letter :
  forall kw w rest c r, same_word kw w -> chars kw <> [] ->
    word_at (chars kw) = true -> w ++ rest = c :: r -> isspace c = false.
Proof.
  intros kw w rest c r Hw Hne Hk E.
  destruct (isspace c) eqn:Hc; [|reflexivity].
  apply space_facts in Hc as [Hc _].
  pose proof (same_word_first rest Hw Hne) as H. rewrite E, Hk in H.
  simpl in H. congruence.
Qed.

(** Whitespace starts no match of the SELECT pattern. *)
Lemma select_not_at_space :
  forall c a b, isspace c = true -> match_here IS select_re b (c :: a) = None.
Proof.
  intros c a b Hc. unfold match_here, select_re. cbn [m]. unfold mark at 1.
  unfold lits. cbn [chars list_ascii_of_string lits_of m].
  assert (H : lit_eq IS "S" c = false).
  { destruct (lit_eq IS "S" c) eqn:E; [|reflexivity].
    apply (@lit_eq_ignorecase IS "S" c eq_refl) in E.
    apply tolower_class in E as [E _]. apply space_facts in Hc as [Hc _].
    rewrite Hc in E. discriminate. }
  rewrite H. reflexivity.
Qed.

Lemma search_skips_space :
  forall ws a b, blank ws ->
    search_from IS select_re b (ws ++ a) = search_from IS select_re (rev ws ++ b) a.
Proof.
  unfold blank. induction ws as [|c ws IH]; intros a b H; [reflexivity|].
  simpl in H. apply andb_true_iff in H as [Hc H].
  cbn [app search_from]. rewrite (@select_not_at_space c (ws ++ a) b Hc), IH by exact H.
  rewrite <- rev_cons_app. reflexivity.
Qed.

(** The match of the SELECT pattern on a statement whose projection list
    is a lone star. *)
Lemma select_star_match :
  forall ws kw ws0 ws1 fromkw rest,
    blank ws -> same_word "SELECT" kw -> blank ws0 -> ws0 <> [] ->
    blank ws1 -> ws1 <> [] -> same_word "FROM" fromkw ->
    re_search IS select_re
      (ws ++ kw ++ ws0 ++ chars "*" ++ ws1 ++ fromkw ++ rest) =
    Some [(0, length (rev ws));
          (2, length (rev ws0 ++ rev kw ++ rev ws));
          (3, length (rev (chars "*") ++ rev ws0 ++ rev kw ++ rev ws));
          (1, length (rev fromkw ++ rev ws1 ++ rev (chars "*") ++
                      rev ws0 ++ rev kw ++ rev ws))].
Proof.
  intros ws kw ws0 ws1 fromkw rest Hws Hkw Hws0 Hn0 Hws1 Hn1 Hfrom.
  unfold re_search. rewrite search_skips_space by exact Hws.
  apply search_here. rewrite app_nil_r.
  unfold match_here, select_re. cbn [m]. unfold mark at 1.
  rewrite (lits_eq IS eq_refl _ _ _ Hkw).
  set (kfrom := fun b2 a2 : list ascii =>
         m IS (lits "FROM") (mark (2 * 0 + 1) (fun _ _ => Some [])) b2 a2).
  set (k3 := mark (2 * 1 + 1)
         (fun b1 a1 => rep_greedy (in_class IS CSpace) kfrom 1 b1 a1)).
  set (k2 := fun b a : list ascii =>
         mark (2 * 1) (fun b0 a0 => rep_lazy (in_class IS CAny) k3 0 b0 a0) b a).
  assert (Hlen : forall ws', blank ws' -> ws' <> [] -> 1 <= length ws').
  { intros [|c l] _ Hne; [now elim Hne|simpl; lia]. }
  assert (F1 : forall b, kfrom b (fromkw ++ rest) =
                         Some [(1, length (rev fromkw ++ b))]).
  { intros b. unfold kfrom. rewrite (lits_eq IS eq_refl _ _ _ Hfrom). reflexivity. }
  assert (F2 : forall b, k3 b (ws1 ++ fromkw ++ rest) =
                         Some [(3, length b);
                               (1, length (rev fromkw ++ rev ws1 ++ b))]).
  { intros b. unfold k3, mark.
    assert (Hstop : forall c r, fromkw ++ rest = c :: r ->
                                in_class IS CSpace c = false).
    { intros c r E.
      exact (space_not_letter (kw := "FROM") rest Hfrom ltac:(discriminate) eq_refl E). }
    rewrite (@rep_greedy_longest (in_class IS CSpace) kfrom ws1 (fromkw ++ rest)
               1 b _ Hws1 (Hlen ws1 Hws1 Hn1) Hstop (F1 (rev ws1 ++ b))).
    reflexivity. }
  assert (F3 : forall b a, k3 b (chars "*" ++ a) = None) by reflexivity.
  assert (F4 : forall b,
             rep_lazy (in_class IS CAny) k3 0 b
               (chars "*" ++ ws1 ++ fromkw ++ rest) =
             Some [(3, length (rev (chars "*") ++ b));
                   (1, length (rev fromkw ++ rev ws1 ++ rev (chars "*") ++ b))]).
  { intros b. cbn [chars list_ascii_of_string app].
    rewrite rep_lazy_next; [|apply (F3 b)|reflexivity].
    apply rep_lazy_here. apply F2. }
  assert (Hstop : forall c r, chars "*" ++ ws1 ++ fromkw ++ rest = c :: r ->
                              in_class IS CSpace c = false).
  { intros c r E. injection E as <- _. reflexivity. }
  assert (F5 : k2 (rev ws0 ++ rev kw ++ rev ws)
                  (chars "*" ++ ws1 ++ fromkw ++ rest) =
               Some [(2, length (rev ws0 ++ rev kw ++ rev ws));
                     (3, length (rev (chars "*") ++ rev ws0 ++ rev kw ++ rev ws));
                     (1, length (rev fromkw ++ rev ws1 ++ rev (chars "*") ++
                                 rev ws0 ++ rev kw ++ rev ws))]).
  { unfold k2, mark at 1. rewrite F4. reflexivity. }
  rewrite (@rep_greedy_longest (in_class IS CSpace) k2 ws0 _ 1 _ _
             Hws0 (Hlen ws0 Hws0 Hn0) Hstop F5).
  reflexivity.
Qed.

Lemma chars_text : forall l, chars (text l) = l.
Proof. exact list_ascii_of_string_of_list_ascii. Qed.

(** X1: a statement of Latin-1 characters (the statements of this model,
    code points 0 to 255) that, past its leading whitespace, does not
    start with the letters of SELECT (in any case) gets no aggregate
    suggestion, whatever the manager: the database is not asked. Outside
    Latin-1 the first gate lets more through: [str.upper] turns some
    characters into text that starts with one of these letters. *)
Theorem not_select_no_suggestion :
  forall self sql_command,
    startswith ci_eqb (chars "SELECT") (lstrip isspace (chars sql_command)) = false ->
    suggest_aggregate_query self sql_command = Return None.
Proof.
  intros self sql H. unfold suggest_aggregate_query.
  destruct (startswith N.eqb (codes "SELECT") _) eqn:Hg; [|reflexivity].
  apply select_gate_spelled in Hg. congruence.
Qed.

Lemma not_select_no_suggestion_witness :
  suggest_aggregate_query init "  update t set x = 1 where y = 2" = Return None.
Proof.
  apply (@not_select_no_suggestion init "  update t set x = 1 where y = 2").
  reflexivity.
Defined.

(** X2: a statement in which the letters FROM (in any case) do not occur
    gets no aggregate suggestion, whatever the manager. *)
Theorem no_from_no_suggestion :
  forall self sql_command,
    contains ci_eqb (chars "FROM") (chars sql_command) = false ->
    suggest_aggregate_query self sql_command = Return None.
Proof.
  intros self sql H. unfold suggest_aggregate_query.
  destruct (negb _); [reflexivity|].
  destruct (re_search IS select_re (chars sql)) as [ms|] eqn:Hm; [|reflexivity].
  exfalso.
  apply select_match_inv in Hm
    as (pre & kw & ws0 & proj & ws1 & fromkw & rest & E & _ & Hfrom & _).
  rewrite E in H.
  replace (pre ++ kw ++ ws0 ++ proj ++ ws1 ++ fromkw ++ rest)
    with ((pre ++ kw ++ ws0 ++ proj ++ ws1) ++ fromkw ++ rest) in H
    by (rewrite <- !app_assoc; reflexivity).
  rewrite contains_later in H; [discriminate|].
  apply contains_first, startswith_spelled, same_word_spelled, Hfrom.
Qed.

Lemma no_from_no_suggestion_witness :
  suggest_aggregate_query init "SELECT 1" = Return None.
Proof. apply (@no_from_no_suggestion init "SELECT 1"). reflexivity. Defined.

(** X3: a statement whose projection list is a lone star (whitespace,
    SELECT, whitespace, [*], whitespace, FROM, in any case) gets no
    aggregate suggestion, whatever the manager and whatever follows FROM:
    the database is not asked. *)
Theorem star_no_suggestion :
  forall self ws kw ws0 ws1 fromkw rest,
    blank ws -> same_word "SELECT" kw -> blank ws0 -> ws0 <> [] ->
    blank ws1 -> ws1 <> [] -> same_word "FROM" fromkw ->
    suggest_aggregate_query self
      (text (ws ++ kw ++ ws0 ++ chars "*" ++ ws1 ++ fromkw ++ rest))
    = Return None.
Proof.
  intros self ws kw ws0 ws1 fromkw rest Hws Hkw Hws0 Hn0 Hws1 Hn1 Hfrom.
  unfold suggest_aggregate_query. rewrite chars_text.
  destruct (negb _); [reflexivity|].
  rewrite select_star_match by assumption.
  destruct (re_search I_ aggregate_re _); [reflexivity|].
  replace (list_eqb _ star) with true; [reflexivity|].
  unfold m_group, m_start, m_end. cbn [slot Nat.eqb Nat.mul Nat.add].
  cbn [chars list_ascii_of_string rev app length].
  rewrite Nat.sub_succ_l, Nat.sub_diag by lia.
  replace (length (rev ws0 ++ rev kw ++ rev ws)) with (length (ws ++ kw ++ ws0))
    by (rewrite !length_app, !length_rev; lia).
  replace (ws ++ kw ++ ws0 ++ "*"%char :: ws1 ++ fromkw ++ rest)
    with ((ws ++ kw ++ ws0) ++ "*"%char :: ws1 ++ fromkw ++ rest)
    by (rewrite <- !app_assoc; reflexivity).
  rewrite skipn_exact. reflexivity.
Qed.

Lemma star_no_suggestion_witness :
  suggest_aggregate_query init "select  *  from t where x > 1" = Return None.
Proof.
  apply (@star_no_suggestion init [] (chars "select") (chars "  ") (chars "  ")
           (chars "from") (chars " t where x > 1"));
    try reflexivity; try discriminate; repeat constructor.
Defined.

(** ** With a cursor, no exception *)

(** X4: on a manager that has a cursor, [suggest_aggregate_query] and
    [print_query_suggestions] return normally for every statement and
    every answer of the database. *)
Theorem engine_returns_with_cursor :
  forall self cur sql_command,
    cursor self = Some cur ->
    (exists r, suggest_aggregate_query self sql_command = Return r) /\
    (exists lines, print_query_suggestions self sql_command = Return lines).
Proof.
  intros self cur sql Hcur.
  assert (H : exists r, suggest_aggregate_query self sql = Return r).
  { destruct (suggest_aggregate_query self sql) as [r|e] eqn:E; [eauto|].
    apply aggregate_raises_only_without_cursor in E as [_ E]. congruence. }
  split; [exact H|]. destruct H as (r & H).
  unfold print_query_suggestions, gather_suggestions. rewrite H. cbn [bind].
  destruct (connection self), (cursor self); eexists; reflexivity.
Qed.

Lemma engine_returns_with_cursor_witness :
  (exists r, suggest_aggregate_query (connected failing_cursor)
               "SELECT a FROM t WHERE a > 1" = Return r) /\
  (exists lines, print_query_suggestions (connected failing_cursor)
                   "SELECT a FROM t WHERE a > 1" = Return lines).
Proof.
  apply (@engine_returns_with_cursor (connected failing_cursor) failing_cursor
           "SELECT a FROM t WHERE a > 1").
  reflexivity.
Defined.

(** ** A suggestion fed back *)

Lemma chars_app :
  forall a b : string, chars (a ++ b)%string = chars a ++ chars b.
Proof. induction a as [|c a IH]; intros b; simpl; [reflexivity|]. now rewrite <- IH. Qed.

(** X5: an aggregate suggestion is itself a statement that gets no
    aggregate suggestion, on any manager: it holds COUNT as a whole word. *)
Theorem aggregate_suggestion_is_final :
  forall self sql_command out,
    suggest_aggregate_query self sql_command = Return (Some out) ->
    forall self', suggest_aggregate_query self' out = Return None.
Proof.
  intros self sql out H self'.
  apply aggregate_inv in H as (ms & cur & descs & _ & _ & _ & Hnum & ->).
  apply found_means_none, aggregate_word_found.
  exists "COUNT". split; [left; reflexivity|].
  destruct (numeric_columns descs) as [|c cols]; [now elim Hnum|].
  exists (chars "SELECT "), (chars "COUNT").
  destruct cols as [|c' cols]; eexists;
    (split; [cbn; reflexivity|split; [repeat constructor|split; reflexivity]]).
Qed.

Lemma aggregate_suggestion_is_final_witness :
  suggest_aggregate_query init
    "SELECT COUNT(a) as count_a, SUM(a) as sum_a, AVG(a) as avg_a FROM t"
  = Return None.
Proof.
  exact (@aggregate_suggestion_is_final
           (connected (describes [{| name := "a"; type_code := int4 |}]))
           "SELECT a FROM t"
           "SELECT COUNT(a) as count_a, SUM(a) as sum_a, AVG(a) as avg_a FROM t"
           eq_refl init).
Defined.

(** ** Lists and keywords *)

Lemma same_word_length :
  forall kw w, same_word kw w -> length w = length (chars kw).
Proof.
  unfold same_word. intros kw w H. symmetry.
  induction H; simpl; congruence.
Qed.


(** ** The first match of the SELECT pattern *)

Section StripMore.
Variable A : Type.
Variable space : A -> bool.

Lemma lstrip_blank_app :
  forall ws t, forallb space ws = true -> lstrip space (ws ++ t) = lstrip space t.
Proof.
  induction ws as [|c ws IH]; intros t H; [reflexivity|].
  simpl in H. apply andb_true_iff in H as [Hc H].
  simpl. rewrite Hc. apply IH, H.
Qed.

Lemma lstrip_keep :
  forall c t, space c = false -> lstrip space (c :: t) = c :: t.
Proof. intros c t Hc. simpl. rewrite Hc. reflexivity. Qed.

(** Stripping on the right keeps a prefix that ends with a character that
    is not whitespace. *)
Lemma rstrip_keeps_prefix :
  forall p c t, space c = false ->
    exists t', rstrip space ((p ++ [c]) ++ t) = (p ++ [c]) ++ t'.
Proof.
  intros p c t Hc. unfold rstrip. rewrite rev_app_distr.
  assert (H : forall a b, exists a', lstrip space (a ++ c :: b) = a' ++ c :: b).
  { induction a as [|d a IH]; intros b.
    - exists []. simpl. rewrite Hc. reflexivity.
    - simpl. destruct (space d).
      + apply IH.
      + exists (d :: a). reflexivity. }
  rewrite rev_app_distr. cbn [rev app].
  destruct (H (rev t) (rev p)) as (a' & ->).
  exists (rev a'). rewrite rev_app_distr. cbn [rev].
  rewrite rev_involutive, <- app_assoc. reflexivity.
Qed.
End StripMore.

(** The first gate is passed by a statement that reads whitespace, then
    SELECT in some case. *)
Lemma select_gate_opens :
  forall ws kw t, blank ws -> same_word "SELECT" kw ->
    startswith N.eqb (codes "SELECT") (strip isspace_cp (upper (ws ++ kw ++ t))) = true.
Proof.
  intros ws kw t Hws Hkw. unfold strip.
  rewrite lstrip_upper, (lstrip_blank_app isspace _ _ Hws).
  assert (Hk : exists c r, kw = c :: r /\ isspace c = false).
  { destruct kw as [|c r].
    - apply same_word_length in Hkw. discriminate.
    - exists c, r. split; [reflexivity|].
      exact (@space_not_letter "SELECT" (c :: r) [] c (r ++ []) Hkw
               ltac:(discriminate) eq_refl eq_refl). }
  destruct Hk as (c & r & -> & Hc). cbn [app]. rewrite lstrip_keep by exact Hc.
  change (c :: r ++ t) with ((c :: r) ++ t).
  unfold upper. rewrite flat_map_app. fold (upper (c :: r)). fold (upper t).
  rewrite (same_word_upper Hkw).
  change (upper (chars "SELECT")) with ([83; 69; 76; 69; 67] ++ [84])%N.
  destruct (rstrip_keeps_prefix isspace_cp [83; 69; 76; 69; 67]%N 84%N (upper t) eq_refl)
    as (t' & ->).
  reflexivity.
Qed.

(** The pattern of the third gate finds only aggregate keywords that
    stand as whole words. *)
Lemma aggregate_match_inv :
  forall sql_command ms,
    re_search I_ aggregate_re (chars sql_command) = Some ms ->
    already_aggregated sql_command.
Proof.
  intros sql ms H. apply search_some in H as (pre & a & E & H).
  rewrite app_nil_r in H. unfold match_here, aggregate_re in H. cbn [m] in H.
  apply mark_some in H as (ms0 & H & ->).
  destruct (at_boundary (rev pre) a) eqn:Hb1; [|discriminate].
  apply mark_some in H as (ms1 & H & ->).
  assert (Hkw : forall kw,
            In kw aggregate_words ->
            m I_ (lits kw)
              (mark (2 * 1 + 1)
                 (fun b a0 => if at_boundary b a0
                              then mark (2 * 0 + 1) (fun _ _ => Some []) b a0
                              else None)) (rev pre) a = Some ms1 ->
            already_aggregated sql).
  { intros kw Hin Hm.
    assert (Hne : chars kw <> [] /\ word_at (chars kw) = true /\
                  word_at (rev (chars kw)) = true).
    { simpl in Hin.
      repeat (destruct Hin as [<-|Hin]; [repeat split; discriminate|]).
      contradiction. }
    destruct Hne as (Hne & Hfirst & Hlast).
    apply (lits_some I_ eq_refl) in Hm as (w & a' & -> & Hw & Hm).
    apply mark_some in Hm as (ms2 & Hm & _).
    destruct (at_boundary (rev w ++ rev pre) a') eqn:Hb2; [|discriminate].
    unfold at_boundary in Hb1, Hb2.
    rewrite (same_word_first a' Hw Hne), Hfirst in Hb1.
    rewrite (same_word_last (rev pre) Hw Hne), Hlast in Hb2.
    exists kw. split; [exact Hin|]. exists pre, w, a'.
    repeat split; try assumption.
    - now destruct (word_at (rev pre)).
    - now destruct (word_at a'). }
  apply orelse_some in H as [H|H]; [exact (Hkw "COUNT" ltac:(simpl; tauto) H)|].
  apply orelse_some in H as [H|H]; [exact (Hkw "SUM" ltac:(simpl; tauto) H)|].
  apply orelse_some in H as [H|H]; [exact (Hkw "AVG" ltac:(simpl; tauto) H)|].
  apply orelse_some in H as [H|H]; [exact (Hkw "MIN" ltac:(simpl; tauto) H)|].
  apply orelse_some in H as [H|H]; [exact (Hkw "MAX" ltac:(simpl; tauto) H)|].
  exact (Hkw "GROUP BY" ltac:(simpl; tauto) H).
Qed.

Lemma not_aggregated_not_found :
  forall sql_command,
    ~ already_aggregated sql_command ->
    re_search I_ aggregate_re (chars sql_command) = None.
Proof.
  intros sql H.
  destruct (re_search I_ aggregate_re (chars sql)) as [ms|] eqn:Hm; [|reflexivity].
  now elim H; apply (aggregate_match_inv sql Hm).
Qed.

Section LazySkip.
Variable p : ascii -> bool.
Variable k : cont.

(** The lazy repetition passes over a text at no place of which the
    continuation accepts. *)
Lemma rep_lazy_skip :
  forall x a b, forallb p x = true ->
    (forall x1 x2, x = x1 ++ x2 -> x2 <> [] -> k (rev x1 ++ b) (x2 ++ a) = None) ->
    rep_lazy p k 0 b (x ++ a) = rep_lazy p k 0 (rev x ++ b) a.
Proof.
  induction x as [|c x IH]; intros a b Hx Hnone; [reflexivity|].
  simpl in Hx. apply andb_true_iff in Hx as [Hc Hx].
  change ((c :: x) ++ a) with (c :: x ++ a).
  rewrite rep_lazy_next;
    [|exact (Hnone [] (c :: x) eq_refl ltac:(discriminate))|exact Hc].
  rewrite IH; [rewrite <- rev_cons_app; reflexivity|exact Hx|].
  intros x1 x2 E Hne. rewrite rev_cons_app.
  apply Hnone; [rewrite E; reflexivity|exact Hne].
Qed.
End LazySkip.

(** The end of the SELECT pattern, whitespace and FROM, matches only at
    whitespace that is followed by FROM. *)
Lemma from_here_found :
  forall k b t ms,
    rep_greedy (in_class IS CSpace)
      (fun b2 a2 => m IS (lits "FROM") k b2 a2) 1 b t = Some ms ->
    from_here t = true.
Proof.
  intros k b t ms H.
  apply rep_greedy_some in H as (x & a' & -> & Hx & Hlen & H).
  apply (lits_some IS eq_refl) in H as (w & a'' & -> & Hw & _).
  destruct x as [|c x]; [simpl in Hlen; lia|].
  cbn [app from_here]. cbn [forallb] in Hx.
  apply andb_true_iff in Hx as [Hc Hx]. cbn [in_class] in Hc. rewrite Hc.
  cbn [andb]. change (c :: x ++ w ++ a'') with ((c :: x) ++ w ++ a'').
  rewrite (lstrip_blank_app isspace (c :: x) (w ++ a''))
    by (cbn [forallb]; rewrite Hc; exact Hx).
  destruct w as [|d w]; [apply same_word_length in Hw; discriminate|].
  cbn [app]. rewrite lstrip_keep.
  - change (d :: w ++ a'') with ((d :: w) ++ a'').
    apply startswith_spelled, same_word_spelled, Hw.
  - exact (@space_not_letter "FROM" (d :: w) a'' d (w ++ a'') Hw
             ltac:(discriminate) eq_refl eq_refl).
Qed.

(** The match of the SELECT pattern on a statement that reads whitespace,
    SELECT, whitespace, a projection list, whitespace, FROM, where the
    projection list starts with a character that is not whitespace and no
    whitespace followed by FROM begins inside it. *)
Lemma select_match_at :
  forall ws kw ws0 proj ws1 fromkw rest,
    blank ws -> same_word "SELECT" kw -> blank ws0 -> ws0 <> [] ->
    (forall c r, proj ++ ws1 = c :: r -> isspace c = false) ->
    (forall p1 p2, proj = p1 ++ p2 -> p2 <> [] ->
       from_here (p2 ++ ws1 ++ fromkw ++ rest) = false) ->
    blank ws1 -> ws1 <> [] -> same_word "FROM" fromkw ->
    re_search IS select_re
      (ws ++ kw ++ ws0 ++ proj ++ ws1 ++ fromkw ++ rest) =
    Some [(0, length (rev ws));
          (2, length (rev ws0 ++ rev kw ++ rev ws));
          (3, length (rev proj ++ rev ws0 ++ rev kw ++ rev ws));
          (1, length (rev fromkw ++ rev ws1 ++ rev proj ++
                      rev ws0 ++ rev kw ++ rev ws))].
Proof.
  intros ws kw ws0 proj ws1 fromkw rest Hws Hkw Hws0 Hn0 Hproj Hfree
    Hws1 Hn1 Hfrom.
  unfold re_search. rewrite search_skips_space by exact Hws.
  apply search_here. rewrite app_nil_r.
  unfold match_here, select_re. cbn [m]. unfold mark at 1.
  rewrite (lits_eq IS eq_refl _ _ _ Hkw).
  set (kfrom := fun b2 a2 : list ascii =>
         m IS (lits "FROM") (mark (2 * 0 + 1) (fun _ _ => Some [])) b2 a2).
  set (k3 := mark (2 * 1 + 1)
         (fun b1 a1 => rep_greedy (in_class IS CSpace) kfrom 1 b1 a1)).
  set (k2 := fun b a : list ascii =>
         mark (2 * 1) (fun b0 a0 => rep_lazy (in_class IS CAny) k3 0 b0 a0) b a).
  assert (Hlen : forall ws', blank ws' -> ws' <> [] -> 1 <= length ws').
  { intros [|c l] _ Hne; [now elim Hne|simpl; lia]. }
  assert (F1 : forall b, kfrom b (fromkw ++ rest) =
                         Some [(1, length (rev fromkw ++ b))]).
  { intros b. unfold kfrom. rewrite (lits_eq IS eq_refl _ _ _ Hfrom). reflexivity. }
  assert (F2 : forall b, k3 b (ws1 ++ fromkw ++ rest) =
                         Some [(3, length b);
                               (1, length (rev fromkw ++ rev ws1 ++ b))]).
  { intros b. unfold k3, mark.
    assert (Hstop : forall c r, fromkw ++ rest = c :: r ->
                                in_class IS CSpace c = false).
    { intros c r E.
      exact (space_not_letter (kw := "FROM") rest Hfrom ltac:(discriminate) eq_refl E). }
    rewrite (@rep_greedy_longest (in_class IS CSpace) kfrom ws1 (fromkw ++ rest)
               1 b _ Hws1 (Hlen ws1 Hws1 Hn1) Hstop (F1 (rev ws1 ++ b))).
    reflexivity. }
  assert (F3 : forall b t, from_here t = false -> k3 b t = None).
  { intros b t Ht. unfold k3, mark.
    destruct (rep_greedy (in_class IS CSpace) kfrom 1 b t) as [ms|] eqn:Hm;
      [|reflexivity].
    apply from_here_found in Hm. congruence. }
  assert (F4 : forall b,
             rep_lazy (in_class IS CAny) k3 0 b (proj ++ ws1 ++ fromkw ++ rest) =
             Some [(3, length (rev proj ++ b));
                   (1, length (rev fromkw ++ rev ws1 ++ rev proj ++ b))]).
  { intros b. rewrite rep_lazy_skip.
    - apply rep_lazy_here. apply F2.
    - apply forallb_any.
    - intros p1 p2 E Hne. apply F3, (Hfree p1 p2 E Hne). }
  assert (Hstop : forall c r, proj ++ ws1 ++ fromkw ++ rest = c :: r ->
                              in_class IS CSpace c = false).
  { intros c r E. destruct (proj ++ ws1) as [|d l] eqn:Ep.
    - destruct proj; [|discriminate]. destruct ws1; [now elim Hn1|discriminate].
    - rewrite app_assoc, Ep in E. injection E as <- _.
      exact (Hproj d l eq_refl). }
  assert (F5 : k2 (rev ws0 ++ rev kw ++ rev ws)
                  (proj ++ ws1 ++ fromkw ++ rest) =
               Some [(2, length (rev ws0 ++ rev kw ++ rev ws));
                     (3, length (rev proj ++ rev ws0 ++ rev kw ++ rev ws));
                     (1, length (rev fromkw ++ rev ws1 ++ rev proj ++
                                 rev ws0 ++ rev kw ++ rev ws))]).
  { unfold k2, mark at 1. rewrite F4. reflexivity. }
  rewrite (@rep_greedy_longest (in_class IS CSpace) k2 ws0 _ 1 _ _
             Hws0 (Hlen ws0 Hws0 Hn0) Hstop F5).
  reflexivity.
Qed.

Lemma list_eqb_neq :
  forall a b, a <> b -> list_eqb a b = false.
Proof.
  intros a b H. unfold list_eqb. apply String.eqb_neq. intros E.
  apply H. rewrite <- (chars_text a), <- (chars_text b), E. reflexivity.
Qed.

(** C5, amended: for a statement that reads whitespace, SELECT in some
    case, whitespace, a projection list, whitespace, FROM and a rest, where
    the projection list starts with a character that is not whitespace and
    runs to the first whitespace that is followed by FROM, a rewritten
    statement is the text [SELECT ], the aggregate projection of the
    numeric columns the probe reported, and then the whitespace before
    FROM, FROM and the rest exactly as they stand in the statement. The
    whitespace before SELECT, the keyword as typed and the whitespace
    after it are replaced by [SELECT ]. *)
Theorem aggregate_rewrite_frame :
  forall self cur descs sql_command ws kw ws0 proj ws1 fromkw rest,
    chars sql_command = ws ++ kw ++ ws0 ++ proj ++ ws1 ++ fromkw ++ rest ->
    blank ws -> same_word "SELECT" kw -> blank ws0 -> ws0 <> [] ->
    proj <> [] -> (forall c r, proj = c :: r -> isspace c = false) ->
    (forall p1 p2, proj = p1 ++ p2 -> p2 <> [] ->
       from_here (p2 ++ ws1 ++ fromkw ++ rest) = false) ->
    blank ws1 -> ws1 <> [] -> same_word "FROM" fromkw ->
    ~ already_aggregated sql_command ->
    strip isspace proj <> chars "*" ->
    cursor self = Some cur ->
    cur sql_command = Runs (Some descs) true ->
    numeric_columns descs <> [] ->
    suggest_aggregate_query self sql_command =
    Return (Some ("SELECT " ++ join ", " (map agg_column (numeric_columns descs)) ++
                  text (ws1 ++ fromkw ++ rest))%string).
Proof.
  intros self cur descs sql ws kw ws0 proj ws1 fromkw rest
    E Hws Hkw Hws0 Hn0 Hne Hproj Hfree Hws1 Hn1 Hfrom Hagg Hstar Hcur Hrun Hnum.
  assert (Hm := @select_match_at ws kw ws0 proj ws1 fromkw rest
                  Hws Hkw Hws0 Hn0).
  rewrite <- E in Hm.
  assert (Hfirst : forall c r, proj ++ ws1 = c :: r -> isspace c = false).
  { intros c r Ep. destruct proj as [|d l]; [now elim Hne|].
    injection Ep as <- _. exact (Hproj d l eq_refl). }
  specialize (Hm Hfirst Hfree Hws1 Hn1 Hfrom).
  assert (Hend : forall x y : list ascii, length (rev x ++ y) = length (y ++ x))
    by (intros x y; rewrite !length_app, length_rev; lia).
  rewrite (@aggregate_run self sql _ cur descs
             ltac:(rewrite E; apply select_gate_opens; assumption)
             Hm (not_aggregated_not_found Hagg)).
  - unfold m_end. cbn [slot Nat.eqb Nat.mul Nat.add].
    replace (length (rev proj ++ rev ws0 ++ rev kw ++ rev ws))
      with (length (ws ++ kw ++ ws0 ++ proj))
      by (rewrite !length_app, !length_rev; lia).
    rewrite E.
    replace (ws ++ kw ++ ws0 ++ proj ++ ws1 ++ fromkw ++ rest)
      with ((ws ++ kw ++ ws0 ++ proj) ++ ws1 ++ fromkw ++ rest)
      by (rewrite <- !app_assoc; reflexivity).
    rewrite skipn_exact. reflexivity.
  - apply list_eqb_neq. unfold m_group, m_start, m_end.
    cbn [slot Nat.eqb Nat.mul Nat.add].
    replace (length (rev proj ++ rev ws0 ++ rev kw ++ rev ws) -
             length (rev ws0 ++ rev kw ++ rev ws)) with (length proj)
      by (rewrite !length_app, !length_rev; lia).
    replace (length (rev ws0 ++ rev kw ++ rev ws))
      with (length (ws ++ kw ++ ws0))
      by (rewrite !length_app, !length_rev; lia).
    rewrite E.
    replace (ws ++ kw ++ ws0 ++ proj ++ ws1 ++ fromkw ++ rest)
      with ((ws ++ kw ++ ws0) ++ proj ++ ws1 ++ fromkw ++ rest)
      by (rewrite <- !app_assoc; reflexivity).
    rewrite skipn_exact, firstn_exact. exact Hstar.
  - exact Hcur.
  - exact Hrun.
  - exact Hnum.
Qed.

Lemma aggregate_rewrite_frame_witness :
  suggest_aggregate_query
    (connected (describes [{| name := "a"; type_code := int4 |};
                           {| name := "b"; type_code := text_oid |}]))
    "  select  a, b   FROM t WHERE from_day > 3"
  = Return (Some "SELECT COUNT(a) as count_a, SUM(a) as sum_a, AVG(a) as avg_a   FROM t WHERE from_day > 3").
Proof.
  apply (@aggregate_rewrite_frame
           (connected (describes [{| name := "a"; type_code := int4 |};
                                  {| name := "b"; type_code := text_oid |}]))
           (describes [{| name := "a"; type_code := int4 |};
                       {| name := "b"; type_code := text_oid |}])
           [{| name := "a"; type_code := int4 |};
            {| name := "b"; type_code := text_oid |}]
           "  select  a, b   FROM t WHERE from_day > 3"
           (chars "  ") (chars "select") (chars "  ") (chars "a, b")
           (chars "   ") (chars "FROM") (chars " t WHERE from_day > 3")).
  - reflexivity.
  - reflexivity.
  - repeat constructor.
  - reflexivity.
  - discriminate.
  - discriminate.
  - intros c r E. injection E as <- _. reflexivity.
  - intros p1 p2 E Hne.
    repeat (destruct p1 as [|? p1];
            [simpl in E; subst p2; reflexivity|simpl in E; injection E as <- E]).
    destruct p1; destruct p2; try discriminate. now elim Hne.
  - reflexivity.
  - discriminate.
  - repeat constructor.
  - intros H. apply aggregate_word_found in H. vm_compute in H. now apply H.
  - discriminate.
  - reflexivity.
  - reflexivity.
  - discriminate.
Defined.

(** ** Which clause is flipped *)




(** ** The clause the flip works on *)










(** ** The flip as a scan *)

(** The operator pattern, matched at the head of a text, finds the
    operator the text starts with, the longer one first. *)
Lemma operator_here :
  forall a b,
    option_map span (match_here NOFLAGS operator_re b a) =
    option_map (@length ascii) (operator_at a).
Proof.
  intros a b.
  destruct a as [|x [|y a]];
    cbv beta iota zeta delta
      [match_here operator_re m lits lits_of chars list_ascii_of_string lit_eq
       ignorecase NOFLAGS mark Nat.mul Nat.add operator_at
       one_char_operator two_char_operator];
    repeat match goal with
           | |- context [Ascii.eqb ?u ?v] => destruct (Ascii.eqb u v)
           end;
    try reflexivity;
    unfold span, m_end, m_start;
    cbn [option_map slot Nat.eqb Nat.mul Nat.add length orb andb];
    f_equal; lia.
Qed.

Lemma operator_at_cases :
  forall a op, operator_at a = Some op ->
    (exists c d u, a = c :: d :: u /\ op = [c; d] /\ two_char_operator c d = true) \/
    (exists c t, a = c :: t /\ op = [c] /\ one_char_operator c = true /\
       match t with d :: _ => two_char_operator c d = false | [] => True end).
Proof.
  intros [|c [|d u]] op H; simpl in H; [discriminate| |].
  - destruct (one_char_operator c) eqn:H1; [|discriminate].
    injection H as <-. right. exists c, []. auto.
  - destruct (two_char_operator c d) eqn:H2.
    + injection H as <-. left. exists c, d, u. auto.
    + destruct (one_char_operator c) eqn:H1; [|discriminate].
      injection H as <-. right. exists c, (d :: u). auto.
Qed.

Lemma flip_scan_none :
  forall c t, operator_at (c :: t) = None -> flip_scan (c :: t) = c :: flip_scan t.
Proof.
  intros c [|d u] H; simpl in *.
  - destruct (one_char_operator c); [discriminate|reflexivity].
  - destruct (two_char_operator c d); [discriminate|].
    destruct (one_char_operator c); [discriminate|reflexivity].
Qed.

(** [re.sub] with the operator pattern and [flip_operator] is the scan. *)
Lemma sub_from_scan :
  forall n s b, length s <= n ->
    sub_from NOFLAGS operator_re (fun op => chars (flip_operator (text op))) 0 b s
    = flip_scan s.
Proof.
  induction n as [|n IH]; intros s b Hn.
  - destruct s; [|simpl in Hn; lia]. cbn [sub_from flip_scan].
    pose proof (operator_here [] b) as H.
    destruct (match_here NOFLAGS operator_re b []); [discriminate|reflexivity].
  - destruct s as [|c t]; [apply (IH [] b); simpl; lia|].
    simpl in Hn. cbn [sub_from].
    pose proof (operator_here (c :: t) b) as H.
    destruct (match_here NOFLAGS operator_re b (c :: t)) as [ms|],
             (operator_at (c :: t)) as [op|] eqn:Hop;
      cbn [option_map] in H; try discriminate.
    + injection H as H. unfold span in H. rewrite H.
      apply operator_at_cases in Hop
        as [(c0 & d & u & E & -> & H2)|(c0 & t0 & E & -> & H1 & H2)];
        injection E as -> ->.
      * cbn [length firstn flip_scan]. rewrite H2.
        cbn [sub_from]. rewrite (IH u (d :: c0 :: b)) by (simpl in Hn; lia).
        reflexivity.
      * cbn [length firstn]. rewrite (IH t0 (c0 :: b)) by lia.
        destruct t0 as [|d u]; cbn [flip_scan]; rewrite ?H2, H1;
          [rewrite app_nil_r|]; reflexivity.
    + rewrite (IH t (c :: b)) by lia. symmetry. apply flip_scan_none, Hop.
Qed.

(** X7: replacing the operators through the pattern, as the source does,
    is one scan from the left that at each position replaces the longest
    operator starting there ([>=], [<=], [<>], [!=] before [>], [<], [=])
    by its inverse, passes over it, and copies every other character. *)
Theorem flip_is_longest_match_scan :
  forall s, flip_all s = flip_scan s.
Proof. intros s. apply (@sub_from_scan (length s)). lia. Qed.





(** * The session *)

(** ** Steps *)

Lemma print_rows_spec :
  forall rows s,
    print_rows rows s =
    (Done tt, {| has_connection := has_connection s;
                 has_cursor := has_cursor s;
                 history := history s ++ map Printed (map (join " | ") rows) |}).
Proof.
  induction rows as [|row rows IH]; intros s.
  - simpl. unfold ret. rewrite app_nil_r. destruct s; reflexivity.
  - cbn [print_rows]. unfold io_bind, print. rewrite IH.
    cbn [record has_connection has_cursor history map]. rewrite <- app_assoc.
    reflexivity.
Qed.

Lemma print_all_spec :
  forall lines s,
    print_all lines s =
    (Done tt, {| has_connection := has_connection s;
                 has_cursor := has_cursor s;
                 history := history s ++ map Printed lines |}).
Proof.
  induction lines as [|line lines IH]; intros s.
  - simpl. unfold ret. rewrite app_nil_r. destruct s; reflexivity.
  - cbn [print_all]. unfold io_bind, print. rewrite IH.
    cbn [record has_connection has_cursor history map]. rewrite <- app_assoc.
    reflexivity.
Qed.

Lemma calls_printed :
  forall lines, calls (map Printed lines) = [].
Proof. induction lines; simpl; auto. Qed.

Lemma calls_app :
  forall h h', calls (h ++ h') = calls h ++ calls h'.
Proof. intros. apply filter_app. Qed.

Lemma calls_cons_printed :
  forall line h, calls (Printed line :: h) = calls h.
Proof. reflexivity. Qed.

Ltac session_unfold :=
  unfold fetch; unfold except_Error, io_bind, call, description, rowcount,
    print, ret, throw;
  cbn [record history has_connection has_cursor fst snd].

Ltac session_step :=
  match goal with
  | |- context [match raises ?d ?h with _ => _ end] =>
      destruct (raises d h) eqn:?
  | |- context [match description_after ?d ?h with _ => _ end] =>
      destruct (description_after d h) as [[|? ?]|] eqn:?
  | |- context [print_rows ?r ?s] => rewrite (print_rows_spec r s)
  | |- context [print_all ?r ?s] => rewrite (print_all_spec r s)
  end;
  cbn [record history has_connection has_cursor fst snd].



(** ** [execute_sql] *)



(** ** The suggesters in a session *)

(** The session's aggregate suggester returns what the pure suggester
    returns for the manager as it stands. *)
Lemma suggest_aggregate_query_io_result :
  forall d sql_command s,
    fst (suggest_aggregate_query_io d sql_command s) =
    outcome_of (suggest_aggregate_query (manager_at d s) sql_command).
Proof.
  intros d sql s. unfold suggest_aggregate_query_io, suggest_aggregate_query.
  destruct (negb _); [reflexivity|].
  destruct (re_search IS select_re (chars sql)) as [ms|]; [|reflexivity].
  destruct (re_search I_ aggregate_re (chars sql)); [reflexivity|].
  destruct (list_eqb _ _); [reflexivity|].
  unfold execute, manager_at, cursor_at, try_except_Error, bind, fetchall.
  cbn [cursor]. session_unfold.
  destruct (has_cursor s); [|reflexivity].
  destruct (raises d (history s ++ [Execute sql])); [reflexivity|].
  cbn [record history has_connection has_cursor fst snd].
  destruct (description_after d (history s ++ [Execute sql])) as [[|c descs]|];
    [reflexivity| |reflexivity].
  cbn [record history has_connection has_cursor fst snd].
  destruct (raises d ((history s ++ [Execute sql]) ++ [FetchAll]));
    cbn [record history has_connection has_cursor fst snd].
  all: try reflexivity.
  all: match goal with
       | |- context [map name ?x] => destruct (map name x)
       end; reflexivity.
Qed.

(** What the session's aggregate suggester leaves behind. *)
Lemma suggest_aggregate_query_io_trace :
  forall d sql_command s,
    let s' := snd (suggest_aggregate_query_io d sql_command s) in
    has_connection s' = has_connection s /\
    has_cursor s' = has_cursor s /\
    (history s' = history s \/
     history s' = history s ++ [Execute sql_command] \/
     history s' = history s ++ [Execute sql_command; FetchAll]).
Proof.
  intros d sql s. unfold suggest_aggregate_query_io.
  destruct (negb _); [cbn; auto|].
  destruct (re_search IS select_re (chars sql)) as [ms|]; [|cbn; auto].
  destruct (re_search I_ aggregate_re (chars sql)); [cbn; auto|].
  destruct (list_eqb _ _); [cbn; auto|].
  session_unfold.
  destruct (has_cursor s) eqn:Hc; [|cbn; auto].
  destruct (raises d (history s ++ [Execute sql]));
    cbn [record history has_connection has_cursor fst snd]; [auto|].
  destruct (description_after d (history s ++ [Execute sql])) as [[|c descs]|];
    cbn [record history has_connection has_cursor fst snd]; [auto| |auto].
  destruct (raises d ((history s ++ [Execute sql]) ++ [FetchAll]));
    cbn [record history has_connection has_cursor fst snd].
  all: try match goal with
           | |- context [map name ?x] => destruct (map name x)
           end;
    cbn [record history has_connection has_cursor fst snd];
    rewrite <- app_assoc; auto.
Qed.

(** The probing calls of the aggregate suggester. *)
Lemma suggest_aggregate_query_io_probe :
  forall d sql_command s,
    has_connection (snd (suggest_aggregate_query_io d sql_command s)) =
      has_connection s /\
    has_cursor (snd (suggest_aggregate_query_io d sql_command s)) =
      has_cursor s /\
    exists probe,
      history (snd (suggest_aggregate_query_io d sql_command s)) =
        history s ++ probe /\
      In probe [[]; [Execute sql_command]; [Execute sql_command; FetchAll]].
Proof.
  intros d sql s.
  destruct (suggest_aggregate_query_io_trace d sql s) as (Hc & Hk & Hh).
  split; [exact Hc|split; [exact Hk|]].
  destruct Hh as [Hh | [Hh | Hh]]; rewrite Hh.
  - exists []. split; [symmetry; apply app_nil_r|simpl; tauto].
  - eexists. split; [reflexivity|simpl; tauto].
  - eexists. split; [reflexivity|simpl; tauto].
Qed.

Lemma flipped_ignores_manager :
  forall self self' sql_command,
    suggest_flipped_conditions self sql_command =
    suggest_flipped_conditions self' sql_command.
Proof. reflexivity. Qed.

(** X10: in a session [print_query_suggestions] makes at most one probing
    execution: its calls to the driver are none, or execute of the
    statement as typed, or that execute followed by fetchall. It never
    commits, rolls back or closes, and the manager keeps its connection
    and cursor. *)
Theorem suggestions_probe_protocol :
  forall d sql_command s,
    let s' := snd (print_query_suggestions_io d sql_command s) in
    has_connection s' = has_connection s /\
    has_cursor s' = has_cursor s /\
    exists evs,
      history s' = history s ++ evs /\
      In (calls evs)
         [[]; [Execute sql_command]; [Execute sql_command; FetchAll]].
Proof.
  intros d sql s. unfold print_query_suggestions_io, io_bind, print, ret. cbv beta.
  destruct (suggest_aggregate_query_io_probe d sql s) as (Hc & Hk & probe & Hh & Hin).
  destruct (suggest_aggregate_query_io d sql s) as [[agg|e] s1];
    cbn [snd] in Hc, Hk, Hh.
  - destruct (suggestion_of _ _ agg ++ suggestion_of _ _ _) as [|sg sgs];
      [|rewrite print_all_spec];
      cbn [record history has_connection has_cursor fst snd];
      destruct (negb (has_connection s1) || negb (has_cursor s1))%bool;
      cbn [record history has_connection has_cursor fst snd];
      (split; [exact Hc|split; [exact Hk|]]);
      rewrite Hh;
      (eexists; split; [rewrite <- ?app_assoc; reflexivity|]);
      rewrite ?calls_app, ?calls_printed, ?app_nil_r;
      cbn [calls filter is_call app];
      rewrite ?app_nil_r;
      destruct Hin as [<- | [<- | [<- | []]]]; simpl; tauto.
  - cbn [snd]. split; [exact Hc|split; [exact Hk|]].
    exists probe. split; [exact Hh|].
    destruct Hin as [<- | [<- | [<- | []]]]; simpl; tauto.
Qed.

(** X11: in a session [print_query_suggestions] prints exactly the lines
    that the pure [print_query_suggestions] computes for the manager as it
    stands, after the probing calls and in that order, and returns
    normally; the manager keeps its connection and cursor. *)
Theorem session_prints_the_suggestions :
  forall d sql_command s lines,
    print_query_suggestions (manager_at d s) sql_command = Return lines ->
    exists probe,
      print_query_suggestions_io d sql_command s =
      (Done tt, {| has_connection := has_connection s;
                   has_cursor := has_cursor s;
                   history := history s ++ probe ++ map Printed lines |}) /\
      In probe [[]; [Execute sql_command]; [Execute sql_command; FetchAll]].
Proof.
  intros d sql s lines H.
  unfold print_query_suggestions, gather_suggestions in H.
  unfold print_query_suggestions_io, io_bind, print, ret. cbv beta.
  pose proof (suggest_aggregate_query_io_result d sql s) as Hr.
  destruct (suggest_aggregate_query_io_probe d sql s) as (Hc & Hk & probe & Hh & Hin).
  destruct (suggest_aggregate_query (manager_at d s) sql) as [agg|e];
    [|discriminate].
  destruct (suggest_aggregate_query_io d sql s) as [r [c1 k1 h1]].
  cbn [fst outcome_of] in Hr. subst r.
  cbn [snd has_connection has_cursor history] in Hc, Hk, Hh. subst c1 k1 h1.
  cbn [bind] in H.
  rewrite (flipped_ignores_manager _ (manager_at d s)).
  exists probe. split; [|exact Hin].
  destruct (suggestion_of _ _ agg ++ suggestion_of _ _ _) as [|sg sgs];
    [|rewrite print_all_spec];
    unfold manager_at in H; cbn [connection cursor] in H;
    cbn [record history has_connection has_cursor fst snd];
    destruct (has_connection s), (has_cursor s);
    unfold record;
    cbn [negb orb history has_connection has_cursor] in H |- *;
    injection H as <-;
    simpl; rewrite ?map_app; simpl;
    rewrite <- ?app_assoc, ?app_nil_r; reflexivity.
Qed.

Lemma session_prints_the_suggestions_witness :
  exists probe,
    print_query_suggestions_io calm "SELECT a FROM t WHERE a > 1"
      {| has_connection := true; has_cursor := true; history := [] |} =
    (Done tt,
     {| has_connection := true; has_cursor := true;
        history :=
          [] ++ probe ++
          map Printed
            [(nl ++ "--- Query Suggestions ---")%string;
             (nl ++ "Aggregate Query:")%string;
             "  This query might be worth running to get an average of the data you just retrieved.";
             "  SELECT COUNT(a) as count_a, SUM(a) as sum_a, AVG(a) as avg_a FROM t WHERE a > 1";
             (nl ++ "Flipped Conditions:")%string;
             "  These queries could help you by giving you the data you haven't seen yet.";
             "  SELECT a FROM t WHERE a <= 1";
             times "-" 60] |}) /\
    In probe [[]; [Execute "SELECT a FROM t WHERE a > 1"];
              [Execute "SELECT a FROM t WHERE a > 1"; FetchAll]].
Proof.
  apply (@session_prints_the_suggestions calm "SELECT a FROM t WHERE a > 1"
           {| has_connection := true; has_cursor := true; history := [] |}).
  vm_compute. reflexivity.
Defined.

(** ** Closing calls *)

Lemma no_close_printed :
  forall lines, existsb is_close (map Printed lines) = false.
Proof. induction lines; simpl; auto. Qed.

Lemma no_close_app :
  forall h h',
    existsb is_close h = false -> existsb is_close h' = false ->
    existsb is_close (h ++ h') = false.
Proof. intros h h' H H'. rewrite existsb_app, H, H'. reflexivity. Qed.

Ltac no_close :=
  rewrite <- ?app_assoc;
  repeat (rewrite ?existsb_app, ?no_close_printed; cbn [app existsb is_close orb]);
  try reflexivity.

(** [execute_sql] returns normally when the rollback raises nothing and
    the description outlasts [fetchall]. *)
Lemma execute_sql_returns :
  forall d sql_command s,
    steady d ->
    never_raises d Rollback ->
    exists evs,
      execute_sql d sql_command s =
      (Done tt, {| has_connection := has_connection s;
                   has_cursor := has_cursor s;
                   history := history s ++ evs |}) /\
      existsb is_close evs = false.
Proof.
  intros d sql s Hs Hr. unfold execute_sql.
  destruct (negb (has_connection s) || negb (has_cursor s))%bool.
  - eexists. split; [reflexivity|reflexivity].
  - session_unfold. repeat session_step.
    all: try match goal with
             | H : raises _ (_ ++ [Rollback]) = Some _ |- _ =>
                 rewrite Hr in H; discriminate
             end.
    all: try match goal with
             | H : description_after _ (_ ++ [FetchAll]) = None |- _ =>
                 rewrite Hs in H; congruence
             end.
    all: unfold record; cbn [history has_connection has_cursor];
      rewrite <- ?app_assoc.
    all: eexists; split; [reflexivity|no_close].
Qed.

(** With a cursor, [print_query_suggestions] returns normally and closes
    nothing. *)
Lemma print_query_suggestions_io_returns :
  forall d sql_command s,
    has_cursor s = true ->
    exists evs,
      print_query_suggestions_io d sql_command s =
      (Done tt, {| has_connection := has_connection s;
                   has_cursor := has_cursor s;
                   history := history s ++ evs |}) /\
      existsb is_close evs = false.
Proof.
  intros d sql s Hcur.
  unfold print_query_suggestions_io, io_bind, print, ret. cbv beta.
  pose proof (suggest_aggregate_query_io_result d sql s) as Hr.
  destruct (suggest_aggregate_query_io_probe d sql s) as (Hc & Hk & probe & Hh & Hin).
  destruct (suggest_aggregate_query (manager_at d s) sql) as [agg|e] eqn:E.
  2:{ apply aggregate_raises_only_without_cursor in E as [_ E].
      unfold manager_at in E. cbn [cursor] in E. rewrite Hcur in E.
      discriminate. }
  destruct (suggest_aggregate_query_io d sql s) as [r [c1 k1 h1]].
  cbn [fst outcome_of] in Hr. subst r.
  cbn [snd has_connection has_cursor history] in Hc, Hk, Hh. subst c1 k1 h1.
  assert (Hp : existsb is_close probe = false)
    by (destruct Hin as [<- | [<- | [<- | []]]]; reflexivity).
  destruct (suggestion_of _ _ agg ++ suggestion_of _ _ _) as [|sg sgs];
    [|rewrite print_all_spec];
    cbn [record history has_connection has_cursor fst snd];
    destruct (negb (has_connection s) || negb (has_cursor s))%bool;
    unfold record; cbn [history has_connection has_cursor];
    rewrite <- ?app_assoc;
    (eexists; split; [try reflexivity|]).
  all: try (rewrite <- (app_nil_r probe) at 1; reflexivity).
  all: no_close; rewrite ?Hp; no_close.
Qed.

(** The command loop of [main] ends normally, with the manager as it was
    and nothing closed, when the manager has a cursor, the rollback raises
    nothing and the description outlasts [fetchall]. *)
Lemma command_loop_returns :
  forall d,
    steady d ->
    never_raises d Rollback ->
    forall keys s,
      has_cursor s = true ->
      exists evs,
        command_loop d keys s =
        (Done tt, {| has_connection := has_connection s;
                     has_cursor := has_cursor s;
                     history := history s ++ evs |}) /\
        existsb is_close evs = false.
Proof.
  intros d Hs Hr. induction keys as [|[typed|] keys IH]; intros s Hcur.
  - cbn [command_loop]. unfold record. eexists. split; reflexivity.
  - cbn [command_loop]. unfold io_bind at 1.
    destruct (is_quit (stripped typed)).
    + unfold ret, record. eexists. split; reflexivity.
    + unfold io_bind at 1.
      assert (Hturn : exists evs,
                 (if String.eqb (stripped typed) EmptyString then ret tt
                  else execute_sql d (stripped typed);~
                       print_query_suggestions_io d (stripped typed))
                   (record (Prompted sql_prompt) s) =
                 (Done tt, {| has_connection := has_connection s;
                              has_cursor := has_cursor s;
                              history := history s ++ evs |}) /\
                 existsb is_close evs = false).
      { destruct (String.eqb (stripped typed) EmptyString).
        - unfold ret, record. eexists. split; reflexivity.
        - unfold io_bind.
          destruct (@execute_sql_returns d (stripped typed)
                      (record (Prompted sql_prompt) s) Hs Hr) as (e1 & -> & H1).
          match goal with
          | |- context [print_query_suggestions_io d ?c ?s1] =>
              destruct (@print_query_suggestions_io_returns d c s1 Hcur)
                as (e2 & -> & H2)
          end.
          cbn [record history has_connection has_cursor].
          rewrite <- !app_assoc. eexists. split; [reflexivity|].
          cbn [app existsb is_close orb]. rewrite existsb_app, H1, H2.
          reflexivity. }
      destruct Hturn as (e1 & -> & H1).
      destruct (IH {| has_connection := has_connection s;
                      has_cursor := has_cursor s;
                      history := history s ++ e1 |} Hcur) as (e2 & -> & H2).
      cbn [history has_connection has_cursor].
      rewrite <- app_assoc. eexists. split; [reflexivity|].
      rewrite existsb_app, H1, H2. reflexivity.
  - cbn [command_loop]. unfold io_bind, print, record.
    cbn [history has_connection has_cursor]. rewrite <- app_assoc.
    eexists. split; reflexivity.
Qed.

(** ** [create_connection] and [close_connection] *)

Lemma create_connection_run :
  forall d host database user password port s,
    create_connection d host database user password port s =
    let connect := Connect host database user password port in
    match raises d (history s ++ [connect]) with
    | Some e =>
        (Done false,
         {| has_connection := has_connection s;
            has_cursor := has_cursor s;
            history := history s ++
              [connect; Printed ("Error connecting to PostgreSQL: " ++ e)] |})
    | None =>
        match raises d (history s ++ [connect; OpenCursor]) with
        | Some e =>
            (Done false,
             {| has_connection := true;
                has_cursor := has_cursor s;
                history := history s ++
                  [connect; OpenCursor;
                   Printed ("Error connecting to PostgreSQL: " ++ e)] |})
        | None =>
            (Done true,
             {| has_connection := true;
                has_cursor := true;
                history := history s ++
                  [connect; OpenCursor;
                   Printed ("Successfully connected to database: " ++ database)] |})
        end
    end.
Proof.
  intros. unfold create_connection, set_connection, set_cursor.
  session_unfold. cbv zeta.
  destruct (raises d (history s ++ [_])) eqn:E1;
    unfold record; cbn [history has_connection has_cursor];
    rewrite <- ?app_assoc; cbn [app]; [reflexivity|].
  destruct (raises d (history s ++ [_; OpenCursor])) eqn:E2;
    cbn [history has_connection has_cursor];
    rewrite <- ?app_assoc; cbn [app]; reflexivity.
Qed.

(** X12: [create_connection] raises nothing when the driver raises only
    [psycopg.Error], and closes nothing. When [connect] raises, it prints
    the error and returns [False], the manager as it was. When [connect]
    succeeds and [cursor()] raises, it prints the error and returns
    [False], and the manager keeps the connection just opened, without a
    new cursor. It returns [True] exactly when both succeed, and then the
    manager holds both. *)
Theorem create_connection_contract :
  forall d host database user password port s,
    let connect := Connect host database user password port in
    let run := create_connection d host database user password port s in
    (forall message,
        raises d (history s ++ [connect]) = Some message ->
        run = (Done false,
               {| has_connection := has_connection s;
                  has_cursor := has_cursor s;
                  history := history s ++
                    [connect;
                     Printed ("Error connecting to PostgreSQL: " ++ message)] |})) /\
    (forall message,
        raises d (history s ++ [connect]) = None ->
        raises d (history s ++ [connect; OpenCursor]) = Some message ->
        run = (Done false,
               {| has_connection := true;
                  has_cursor := has_cursor s;
                  history := history s ++
                    [connect; OpenCursor;
                     Printed ("Error connecting to PostgreSQL: " ++ message)] |})) /\
    (raises d (history s ++ [connect]) = None ->
     raises d (history s ++ [connect; OpenCursor]) = None ->
     run = (Done true,
            {| has_connection := true;
               has_cursor := true;
               history := history s ++
                 [connect; OpenCursor;
                  Printed ("Successfully connected to database: " ++ database)] |})) /\
    (fst run = Done true <->
     raises d (history s ++ [connect]) = None /\
     raises d (history s ++ [connect; OpenCursor]) = None).
Proof.
  intros d host database user password port s. cbv zeta.
  rewrite create_connection_run. cbv zeta.
  destruct (raises d (history s ++ [_])) as [e|];
    [|destruct (raises d (history s ++ [_; OpenCursor])) as [e|]].
  all: split; [intros message H; try discriminate; injection H as <-; reflexivity|].
  all: split; [intros message H1 H2; try discriminate;
               injection H2 as <-; reflexivity|].
  all: split; [intros H1 H2; try discriminate; reflexivity|].
  all: cbn [fst]; split; [intros H; try discriminate; auto|intros [H1 H2]; try discriminate; reflexivity].
Qed.

Lemma close_connection_run :
  forall d s,
    never_raises d CloseCursor ->
    never_raises d CloseConnection ->
    close_connection d s =
    (Done tt,
     {| has_connection := has_connection s;
        has_cursor := has_cursor s;
        history := history s ++
          (if has_cursor s then [CloseCursor] else []) ++
          (if has_connection s
           then [CloseConnection; Printed "Connection closed successfully"]
           else []) |}).
Proof.
  intros d s Hk Hc. unfold close_connection. session_unfold.
  destruct s as [c k h]. cbn [history has_connection has_cursor].
  destruct k, c; cbn [history has_connection has_cursor];
    rewrite ?Hk, ?Hc; unfold record; cbn [history has_connection has_cursor];
    rewrite ?Hc; rewrite <- ?app_assoc, ?app_nil_r; reflexivity.
Qed.

(** X13: [close_connection] closes the cursor first and then the
    connection, each only when the manager holds it, and prints its
    message only after the connection is closed. It never clears the two
    attributes. When closing the cursor raises, that error leaves the
    function at once and the connection is not closed; when closing the
    connection raises, the error leaves it before the message. It returns
    normally exactly when no close it makes raises. *)
Theorem close_connection_protocol :
  forall d s,
    let run := close_connection d s in
    let cursor_part := if has_cursor s then [CloseCursor] else [] in
    has_connection (snd run) = has_connection s /\
    has_cursor (snd run) = has_cursor s /\
    (forall message,
        has_cursor s = true ->
        raises d (history s ++ [CloseCursor]) = Some message ->
        fst run = Failed (DatabaseError message) /\
        history (snd run) = history s ++ [CloseCursor]) /\
    (has_cursor s = false \/ raises d (history s ++ [CloseCursor]) = None ->
     (forall message,
         has_connection s = true ->
         raises d (history s ++ cursor_part ++ [CloseConnection]) = Some message ->
         fst run = Failed (DatabaseError message) /\
         history (snd run) = history s ++ cursor_part ++ [CloseConnection]) /\
     (has_connection s = true ->
      raises d (history s ++ cursor_part ++ [CloseConnection]) = None ->
      fst run = Done tt /\
      history (snd run) =
        history s ++ cursor_part ++
        [CloseConnection; Printed "Connection closed successfully"]) /\
     (has_connection s = false ->
      fst run = Done tt /\ history (snd run) = history s ++ cursor_part)).
Proof.
  intros d s. cbv zeta. unfold close_connection. session_unfold.
  destruct s as [c k h]. cbn [history has_connection has_cursor].
  destruct k; cbn [history has_connection has_cursor].
  - destruct (raises d (h ++ [CloseCursor])) as [m|] eqn:E1;
      cbn [fst snd history has_connection has_cursor].
    + split; [reflexivity|split; [reflexivity|split]].
      * intros message _ H. injection H as <-. split; reflexivity.
      * intros [H|H]; discriminate.
    + destruct c; cbn [fst snd record history has_connection has_cursor].
      * rewrite <- !app_assoc. cbn [app].
        destruct (raises d (h ++ [CloseCursor; CloseConnection])) as [m|] eqn:E2;
          cbn [fst snd record history has_connection has_cursor];
          rewrite <- ?app_assoc; cbn [app].
        -- split; [reflexivity|split; [reflexivity|split]];
             [intros message _ H; discriminate|].
           intros _. split; [|split].
           ++ intros message _ H. injection H as <-. split; reflexivity.
           ++ intros _ H. discriminate.
           ++ intros H. discriminate.
        -- split; [reflexivity|split; [reflexivity|split]];
             [intros message _ H; discriminate|].
           intros _. split; [|split].
           ++ intros message _ H. discriminate.
           ++ intros _ _. split; reflexivity.
           ++ intros H. discriminate.
      * split; [reflexivity|split; [reflexivity|split]];
          [intros message _ H; discriminate|].
        intros _. split; [|split].
        -- intros message H. discriminate.
        -- intros H. discriminate.
        -- intros _. split; reflexivity.
  - destruct c; cbn [fst snd record history has_connection has_cursor].
    + cbn [app].
      destruct (raises d (h ++ [CloseConnection])) as [m|] eqn:E2;
        cbn [fst snd record history has_connection has_cursor];
        rewrite <- ?app_assoc; cbn [app].
      * split; [reflexivity|split; [reflexivity|split]];
          [intros message H; discriminate|].
        intros _. split; [|split].
        -- intros message _ H. injection H as <-. split; reflexivity.
        -- intros _ H. discriminate.
        -- intros H. discriminate.
      * split; [reflexivity|split; [reflexivity|split]];
          [intros message H; discriminate|].
        intros _. split; [|split].
        -- intros message _ H. discriminate.
        -- intros _ _. split; reflexivity.
        -- intros H. discriminate.
    + split; [reflexivity|split; [reflexivity|split]];
        [intros message H; discriminate|].
      intros _. split; [|split].
      * intros message H. discriminate.
      * intros H. discriminate.
      * intros _. split; [reflexivity|symmetry; apply app_nil_r].
Qed.

(** X14: a manager that was closed still executes: [close_connection]
    leaves both attributes in place, so a following [execute_sql] does not
    answer that there is no connection but calls [execute] on the closed
    cursor. *)
Theorem closed_manager_still_executes :
  forall d sql_command s,
    has_connection s = true ->
    has_cursor s = true ->
    fst (close_connection d s) = Done tt ->
    let s1 := snd (close_connection d s) in
    exists evs,
      history s1 =
        history s ++ [CloseCursor; CloseConnection;
                      Printed "Connection closed successfully"] /\
      history (snd (execute_sql d sql_command s1)) =
        history s1 ++ Execute sql_command :: evs.
Proof.
  intros d sql s Hc Hk Hr. cbv zeta.
  revert Hr. unfold close_connection. session_unfold.
  destruct s as [c k h]. cbn [history has_connection has_cursor] in *.
  subst c k. cbn [history has_connection has_cursor].
  destruct (raises d (h ++ [CloseCursor])); [discriminate|].
  cbn [fst snd record history has_connection has_cursor].
  destruct (raises d ((h ++ [CloseCursor]) ++ [CloseConnection])); [discriminate|].
  cbn [fst snd record history has_connection has_cursor]. intros _.
  unfold execute_sql. cbn [history has_connection has_cursor negb orb].
  session_unfold. repeat session_step.
  all: unfold record; cbn [negb orb fst snd history has_connection has_cursor].
  all: eexists; split; rewrite <- ?app_assoc; cbn [app]; reflexivity.
Qed.

Lemma closed_manager_still_executes_witness :
  exists evs,
    history (snd (close_connection calm
       {| has_connection := true; has_cursor := true; history := [] |})) =
      [] ++ [CloseCursor; CloseConnection;
             Printed "Connection closed successfully"] /\
    history (snd (execute_sql calm "SELECT 1"
       (snd (close_connection calm
          {| has_connection := true; has_cursor := true; history := [] |})))) =
      history (snd (close_connection calm
         {| has_connection := true; has_cursor := true; history := [] |})) ++
      Execute "SELECT 1" :: evs.
Proof.
  apply (@closed_manager_still_executes calm "SELECT 1"
           {| has_connection := true; has_cursor := true; history := [] |});
    reflexivity.
Defined.

(** ** What the suggester costs *)

(** X15: an aggregate suggestion is only made after the statement has been
    executed once more on the manager's cursor and all its rows fetched:
    both calls are made, in that order, and neither raises. *)
Theorem aggregate_suggestion_costs_an_execution :
  forall d sql_command s suggestion,
    fst (suggest_aggregate_query_io d sql_command s) = Done (Some suggestion) ->
    has_cursor s = true /\
    history (snd (suggest_aggregate_query_io d sql_command s)) =
      history s ++ [Execute sql_command; FetchAll] /\
    raises d (history s ++ [Execute sql_command]) = None /\
    raises d (history s ++ [Execute sql_command; FetchAll]) = None.
Proof.
  intros d sql s q. unfold suggest_aggregate_query_io.
  destruct (negb _); [discriminate|].
  destruct (re_search IS select_re (chars sql)) as [ms|]; [|discriminate].
  destruct (re_search I_ aggregate_re (chars sql)); [discriminate|].
  destruct (list_eqb _ _); [discriminate|].
  session_unfold.
  destruct (has_cursor s) eqn:Hc; [|discriminate].
  destruct (raises d (history s ++ [Execute sql])) eqn:E1;
    cbn [record history has_connection has_cursor fst snd]; [discriminate|].
  destruct (description_after d (history s ++ [Execute sql])) as [[|c descs]|];
    cbn [record history has_connection has_cursor fst snd];
    [discriminate| |discriminate].
  destruct (raises d ((history s ++ [Execute sql]) ++ [FetchAll])) eqn:E2;
    cbn [record history has_connection has_cursor fst snd]; [discriminate|].
  rewrite <- app_assoc in E2. cbn [app] in E2.
  destruct (map name _);
    cbn [record history has_connection has_cursor fst snd]; [discriminate|].
  intros _. rewrite <- app_assoc. auto.
Qed.

Lemma aggregate_suggestion_costs_an_execution_witness :
  has_cursor {| has_connection := true; has_cursor := true; history := [] |} = true /\
  history (snd (suggest_aggregate_query_io calm "SELECT a FROM t"
     {| has_connection := true; has_cursor := true; history := [] |})) =
    [] ++ [Execute "SELECT a FROM t"; FetchAll] /\
  raises calm ([] ++ [Execute "SELECT a FROM t"]) = None /\
  raises calm ([] ++ [Execute "SELECT a FROM t"; FetchAll]) = None.
Proof.
  apply (@aggregate_suggestion_costs_an_execution calm "SELECT a FROM t"
           {| has_connection := true; has_cursor := true; history := [] |}
           "SELECT COUNT(a) as count_a, SUM(a) as sum_a, AVG(a) as avg_a FROM t").
  vm_compute. reflexivity.
Defined.

(** Past the first gate the database is not asked. *)
Lemma probe_closed :
  forall d sql_command s,
    startswith ci_eqb (chars "SELECT") (lstrip isspace (chars sql_command)) = false ->
    suggest_aggregate_query_io d sql_command s = (Done None, s).
Proof.
  intros d sql s H.
  unfold suggest_aggregate_query_io.
  destruct (startswith N.eqb (codes "SELECT") _) eqn:Hg; [|reflexivity].
  apply select_gate_spelled in Hg. congruence.
Qed.

(** X16: for a statement of Latin-1 characters (the statements of this
    model, code points 0 to 255) that, past its leading whitespace, does
    not start with the letters of SELECT, [print_query_suggestions] makes
    no call to the driver at all: it only prints. An update, insert or
    delete is not sent to the database a second time. *)
Theorem non_select_is_not_probed :
  forall d sql_command s,
    startswith ci_eqb (chars "SELECT") (lstrip isspace (chars sql_command)) = false ->
    exists lines,
      print_query_suggestions_io d sql_command s =
      (Done tt, {| has_connection := has_connection s;
                   has_cursor := has_cursor s;
                   history := history s ++ map Printed lines |}).
Proof.
  intros d sql s H.
  unfold print_query_suggestions_io, io_bind, print, ret. cbv beta.
  rewrite (@probe_closed d sql s H). destruct s as [c k h].
  cbn [has_connection has_cursor history].
  generalize (suggest_flipped_conditions
                (manager_at d {| has_connection := c; has_cursor := k; history := h |})
                sql).
  intros fl.
  generalize (suggestion_of "Aggregate Query" aggregate_rationale None ++
              suggestion_of "Flipped Conditions" flipped_rationale fl).
  intros [|sg sgs].
  - destruct (negb c || negb k)%bool; unfold record;
      cbn [history has_connection has_cursor].
    + exists ["Error: No active database connection"]. reflexivity.
    + exists []. cbn [map]. rewrite app_nil_r. reflexivity.
  - rewrite print_all_spec.
    cbn [record history has_connection has_cursor fst snd].
    destruct (negb c || negb k)%bool; unfold record;
      cbn [history has_connection has_cursor];
      rewrite <- ?app_assoc.
    + exists ([(nl ++ "--- Query Suggestions ---")%string] ++
              flat_map print_suggestion (sg :: sgs) ++
              [times "-" 60; "Error: No active database connection"]).
      rewrite !map_app. reflexivity.
    + exists ([(nl ++ "--- Query Suggestions ---")%string] ++
              flat_map print_suggestion (sg :: sgs) ++ [times "-" 60]).
      rewrite !map_app. reflexivity.
Qed.

Lemma non_select_is_not_probed_witness :
  exists lines,
    print_query_suggestions_io calm "UPDATE t SET a = 1 WHERE b > 2"
      {| has_connection := true; has_cursor := true; history := [] |} =
    (Done tt, {| has_connection := true; has_cursor := true;
                 history := [] ++ map Printed lines |}).
Proof.
  apply (@non_select_is_not_probed calm "UPDATE t SET a = 1 WHERE b > 2"
           {| has_connection := true; has_cursor := true; history := [] |}).
  reflexivity.
Defined.

(** ** [main] *)

(** [main] once the five opening prompts are answered and the port is a
    number. *)
Lemma main_connects :
  forall d int host database user password port port_number keys,
    int (or_default port "5432") = Some port_number ->
    main d int (Line host :: Line database :: Line user :: Line password ::
                Line port :: keys) =
    (connected <~ create_connection d (or_default host "localhost") database
                    user password port_number ;~
     if negb connected then ret tt
     else
       print (nl ++ "Enter SQL commands (type 'quit' or 'exit' to close connection and exit)")%string ;~
       print (times "-" 60) ;~
       command_loop d keys ;~
       close_connection d ;~
       print "Goodbye!")
      {| has_connection := false; has_cursor := false; history := asked |}.
Proof.
  intros d int host database user password port port_number keys Hint.
  unfold main.
  unfold io_bind at 1. unfold print at 1. unfold record, fresh.
  cbn [history has_connection has_cursor app].
  do 5 (unfold io_bind at 1; unfold input at 1; unfold record;
        cbn [history has_connection has_cursor app fst snd]).
  rewrite Hint. reflexivity.
Qed.

(** X17: once connected, [main] always closes. When the opening prompts are
    answered, the port is a number, [connect] and [cursor()] succeed,
    [fetchall] leaves the description as it is, and neither a rollback nor
    a close raises, [main] returns normally whatever
    is typed afterwards (statements that fail, [quit], Ctrl-C, the end of
    the input), and the last things it does are: close the cursor, close
    the connection, print that the connection is closed, print the
    farewell. Nothing is closed before. *)
Theorem main_closes_the_connection :
  forall d int host database user password port port_number keys,
    int (or_default port "5432") = Some port_number ->
    raises d (asked ++ [Connect (or_default host "localhost") database user
                          password port_number]) = None ->
    raises d (asked ++ [Connect (or_default host "localhost") database user
                          password port_number; OpenCursor]) = None ->
    steady d ->
    never_raises d Rollback ->
    never_raises d CloseCursor ->
    never_raises d CloseConnection ->
    exists before,
      main d int (Line host :: Line database :: Line user :: Line password ::
                  Line port :: keys) =
      (Done tt,
       {| has_connection := true;
          has_cursor := true;
          history :=
            before ++
            [CloseCursor; CloseConnection;
             Printed "Connection closed successfully"; Printed "Goodbye!"] |}) /\
      existsb is_close before = false.
Proof.
  intros d int host database user password port port_number keys
    Hint Hconnect Hcursor Hs Hr Hk Hc.
  rewrite (@main_connects d int host database user password port port_number
             keys Hint).
  unfold io_bind at 1. rewrite create_connection_run. cbv zeta.
  cbn [history]. rewrite Hconnect, Hcursor. cbn [negb].
  unfold io_bind at 1. unfold print at 1.
  unfold io_bind at 1. unfold print at 1.
  unfold io_bind at 1.
  match goal with
  | |- context [command_loop d keys ?s1] =>
      destruct (@command_loop_returns d Hs Hr keys s1 eq_refl) as (evs & -> & Hev)
  end.
  unfold io_bind at 1. rewrite (@close_connection_run d _ Hk Hc).
  unfold print, record. cbn [history has_connection has_cursor].
  rewrite <- !app_assoc. cbn [app].
  eexists (asked ++ _ :: _ :: _ :: _ :: _ :: evs). split.
  - rewrite <- !app_assoc. cbn [app]. reflexivity.
  - rewrite existsb_app. cbn [asked existsb is_close orb]. exact Hev.
Qed.

Lemma main_closes_the_connection_witness :
  exists before,
    main calm int_of_port
      (Line "" :: Line "shop" :: Line "ann" :: Line "secret" :: Line "" ::
       [Line "SELECT a FROM t"; Line "drop table t"; CtrlC]) =
    (Done tt,
     {| has_connection := true;
        has_cursor := true;
        history :=
          before ++
          [CloseCursor; CloseConnection;
           Printed "Connection closed successfully"; Printed "Goodbye!"] |}) /\
    existsb is_close before = false.
Proof.
  apply (@main_closes_the_connection calm int_of_port
           "" "shop" "ann" "secret" "" 5432%Z
           [Line "SELECT a FROM t"; Line "drop table t"; CtrlC]).
  - reflexivity.
  - reflexivity.
  - reflexivity.
  - intros h. reflexivity.
  - intros h. reflexivity.
  - intros h. reflexivity.
  - intros h. reflexivity.
Defined.

(** X18: when connecting fails, [main] returns normally right after the
    error line: it asks for no statement, prints no farewell and closes
    nothing. When [connect] raises, the manager holds nothing; when
    [connect] succeeds and [cursor()] raises, the manager holds the
    connection just opened, which is left open. *)
Theorem main_stops_when_connecting_fails :
  forall d int host database user password port port_number keys message,
    int (or_default port "5432") = Some port_number ->
    let connect := Connect (or_default host "localhost") database user
                     password port_number in
    let run := main d int (Line host :: Line database :: Line user ::
                           Line password :: Line port :: keys) in
    (raises d (asked ++ [connect]) = Some message ->
     run = (Done tt,
            {| has_connection := false;
               has_cursor := false;
               history :=
                 asked ++
                 [connect;
                  Printed ("Error connecting to PostgreSQL: " ++ message)] |})) /\
    (raises d (asked ++ [connect]) = None ->
     raises d (asked ++ [connect; OpenCursor]) = Some message ->
     run = (Done tt,
            {| has_connection := true;
               has_cursor := false;
               history :=
                 asked ++
                 [connect; OpenCursor;
                  Printed ("Error connecting to PostgreSQL: " ++ message)] |})).
Proof.
  intros d int host database user password port port_number keys message
    Hint connect run. subst run connect.
  rewrite (@main_connects d int host database user password port port_number
             keys Hint).
  unfold io_bind. rewrite create_connection_run. cbv zeta.
  cbn [history has_connection has_cursor].
  split.
  - intros H. rewrite H. reflexivity.
  - intros H1 H2. rewrite H1, H2. reflexivity.
Qed.

Lemma main_stops_when_connecting_fails_witness :
  main unreachable int_of_port
    (Line "db.example" :: Line "shop" :: Line "ann" :: Line "secret" ::
     Line "5433" :: [Line "SELECT a FROM t"]) =
  (Done tt,
   {| has_connection := false;
      has_cursor := false;
      history :=
        asked ++
        [Connect (or_default "db.example" "localhost") "shop" "ann" "secret"
           5433%Z;
         Printed ("Error connecting to PostgreSQL: " ++ "connection refused")] |}).
Proof.
  apply (@main_stops_when_connecting_fails unreachable int_of_port
           "db.example" "shop" "ann" "secret" "5433" 5433%Z
           [Line "SELECT a FROM t"] "connection refused").
  - reflexivity.
  - reflexivity.
Defined.

Ltac left_at e n :=
  exists e,
    (firstn n ["Host (default: localhost): "; "Database name: "; "Username: ";
               "Password: "; "Port (default: 5432): "]);
  split; [reflexivity|auto].

(** X19: the five opening prompts are not protected. When the terminal does
    not answer all five with a line (the input ends, or Ctrl-C is pressed),
    [main] is left by [EOFError] or [KeyboardInterrupt]; no call to the
    driver has been made and nothing but the banner is printed. *)
Theorem main_needs_five_answers :
  forall d int keys,
    five_lines keys = false ->
    exists e prompts,
      main d int keys =
      (Failed e,
       {| has_connection := false; has_cursor := false;
          history := Printed "=== PostgreSQL Connection Manager ===" ::
                     map Prompted prompts |}) /\
      (e = EndOfInput \/ e = Interrupted).
Proof.
  intros d int keys H. unfold main.
  unfold io_bind at 1. unfold print at 1. unfold record, fresh.
  cbn [history has_connection has_cursor app].
  destruct keys as [|[a|] keys];
    [left_at EndOfInput 1%nat| |left_at Interrupted 1%nat].
  destruct keys as [|[b|] keys];
    [left_at EndOfInput 2%nat| |left_at Interrupted 2%nat].
  destruct keys as [|[c|] keys];
    [left_at EndOfInput 3%nat| |left_at Interrupted 3%nat].
  destruct keys as [|[e|] keys];
    [left_at EndOfInput 4%nat| |left_at Interrupted 4%nat].
  destruct keys as [|[f|] keys];
    [left_at EndOfInput 5%nat|discriminate|left_at Interrupted 5%nat].
Qed.

Lemma main_needs_five_answers_witness :
  exists e prompts,
    main calm int_of_port [Line "localhost"; Line "shop"; CtrlC] =
    (Failed e,
     {| has_connection := false; has_cursor := false;
        history := Printed "=== PostgreSQL Connection Manager ===" ::
                   map Prompted prompts |}) /\
    (e = EndOfInput \/ e = Interrupted).
Proof.
  apply (@main_needs_five_answers calm int_of_port
           [Line "localhost"; Line "shop"; CtrlC]).
  reflexivity.
Defined.

(** X20: a port that is not a number ends [main] with [ValueError] before
    anything is sent to the driver: the history holds the banner and the
    five prompts only. *)
Theorem main_bad_port :
  forall d int host database user password port keys,
    int (or_default port "5432") = None ->
    main d int (Line host :: Line database :: Line user :: Line password ::
                Line port :: keys) =
    (Failed BadNumber,
     {| has_connection := false; has_cursor := false; history := asked |}).
Proof.
  intros d int host database user password port keys Hint.
  unfold main.
  unfold io_bind at 1. unfold print at 1. unfold record, fresh.
  cbn [history has_connection has_cursor app].
  do 5 (unfold io_bind at 1; unfold input at 1; unfold record;
        cbn [history has_connection has_cursor app fst snd]).
  rewrite Hint. reflexivity.
Qed.

Lemma main_bad_port_witness :
  main calm int_of_port
    (Line "" :: Line "shop" :: Line "ann" :: Line "secret" :: Line "54x2" :: []) =
  (Failed BadNumber,
   {| has_connection := false; has_cursor := false; history := asked |}).
Proof.
  apply (@main_bad_port calm int_of_port "" "shop" "ann" "secret" "54x2" []).
  reflexivity.
Defined.
